(** * PythonAnnotations: the annotation analyzer

    A shallow embedding of [AnnotationAnalyzer], the [ast.NodeVisitor] of
    [scripts/analyzer/analyzer.py], and of the records it fills, followed by
    the properties of the leaf counter, the base-type resolver and the
    declaration walker.

    The Python object [self] is modelled by the record [Analyzer]; every
    method takes the analyzer and returns the analyzer it leaves behind.
    Python integers are [Z]; Python lists are [list], [append] adds at the
    end.  A method that can raise returns a [result].  The interpreter's
    recursion limit is not modelled: a traversal that exhausts it raises
    [RecursionError], which [analyze_repository] catches for that file. *)

From Stdlib Require Import ZArith List String Ascii Bool Lia.
Import ListNotations.
Local Open Scope Z_scope.
Local Open Scope string_scope.
#[local] Set Warnings "-register-all".

(** ** The syntax trees handed over by [ast.parse] *)

Module Ast.

(** The payload of an [ast.Constant].  Floats, bytes and complex numbers
    are kept as their literal text: no method looks inside them. *)
Inductive constant : Type :=
| CNone
| CBool (b : bool)
| CInt (n : Z)
| CStr (s : string)
| CEllipsis
| COther (literal : string).

Inductive operator : Type :=
| Add | Sub | Mult | MatMult | Div | Mod | Pow | LShift | RShift
| BitOr | BitXor | BitAnd | FloorDiv.

Inductive unaryop : Type := Invert | Not | UAdd | USub.

Inductive boolop : Type := And | Or.

(** Expression nodes.  The first ten constructors are the shapes the type
    [TAnnotation] lists as correct annotations, the next seven the ones it
    lists as incorrect; [OtherExpr] stands for every remaining [ast.expr]
    class, named by [kind]. *)
Inductive expr : Type :=
| Name (id : string)
| Constant (value : constant)
| Subscript (value : expr) (slice : expr)
| Attribute (value : expr) (attr : string)
| BinOp (left_ : expr) (op : operator) (right_ : expr)
| Call (func : expr) (args : list expr)
| Slice (lower upper step : option expr)
| List (elts : list expr)
| Tuple (elts : list expr)
| UnaryOp (op : unaryop) (operand : expr)
| BoolOp (op : boolop) (values : list expr)
| Dict (keys : list (option expr)) (values : list expr)
| IfExp (test body orelse : expr)
| Lambda (body : expr)
| Set_ (elts : list expr)
| Compare (left : expr) (comparators : list expr)
| JoinedStr (values : list expr)
| OtherExpr (kind : string) (children : list expr).

(** [ast.arg]: one entry of [node.args.args]. *)
Record arg : Type := mk_arg {
  arg_name : string;
  annotation : option expr
}.

(** Statement nodes.  Only [FunctionDef], [AnnAssign] and [Assign] have a
    [visit_] method and only [Return] is tested by [contains_return];
    every other statement ([If], [For], [While], [With], [Try],
    [ClassDef], [AsyncFunctionDef], [Expr], [Pass], ...) is [OtherStmt]
    with the statements nested in it.  Expressions never contain
    statements, so expression fields that no method reads are left out. *)
Inductive stmt : Type :=
| FunctionDef (name : string) (lineno : Z) (args : list arg)
              (returns : option expr) (body : list stmt)
| AnnAssign (target : expr) (ann : expr) (lineno : Z)
| Assign (targets : list expr) (lineno : Z)
| Return (value : option expr)
| OtherStmt (kind : string) (children : list stmt).

(** A parsed source unit: [ast.Module.body]. *)
Definition module : Type := list stmt.

End Ast.
Import Ast.

(** ** Records *)

Inductive FuncVarType : Type := FUNCTION_ARG | FUNCTION_RETURN | VARIABLE.

Record Annotation : Type := mk_Annotation {
  a_repo_id : Z;
  a_relative_path : string;
  func_var_name : string;
  a_lineno : Z;
  annot_name : string;
  func_var_type : FuncVarType;
  base_type : string;
  entire_annotation : string;
  count : Z
}.

Record FuncVar : Type := mk_FuncVar {
  fv_repo_id : Z;
  fv_relative_path : string;
  fv_name : string;
  fv_lineno : Z;
  num_var : Z;
  num_var_annotated : Z
}.

(** [FuncVar.__init__] *)
Definition new_FuncVar (repo_id : Z) (rel_path name : string) (lineno : Z)
  : FuncVar :=
  mk_FuncVar repo_id rel_path name lineno 0 0.

Definition increase_num_var (f : FuncVar) : FuncVar :=
  mk_FuncVar (fv_repo_id f) (fv_relative_path f) (fv_name f) (fv_lineno f)
             (num_var f + 1) (num_var_annotated f).

Definition increase_num_var_annotated (f : FuncVar) : FuncVar :=
  mk_FuncVar (fv_repo_id f) (fv_relative_path f) (fv_name f) (fv_lineno f)
             (num_var f) (num_var_annotated f + 1).

(** The mutable fields of an [AnnotationAnalyzer] instance (the logger and
    the progress figure play no part in the analysis). *)
Record Analyzer : Type := mk_Analyzer {
  repo_id : Z;
  rel_path : string;
  total_annotations : Z;
  last_count : Z;
  funcs_and_vars : list FuncVar;
  annotations : list Annotation;
  unannotated_names : list string
}.

(** [AnnotationAnalyzer.__init__] *)
Definition new_Analyzer (repo_id : Z) (rel_path : string) : Analyzer :=
  mk_Analyzer repo_id rel_path 0 0 [] [] [].

Definition set_total_annotations (n : Z) (self : Analyzer) : Analyzer :=
  mk_Analyzer (repo_id self) (rel_path self) n (last_count self)
              (funcs_and_vars self) (annotations self)
              (unannotated_names self).

Definition set_last_count (n : Z) (self : Analyzer) : Analyzer :=
  mk_Analyzer (repo_id self) (rel_path self) (total_annotations self) n
              (funcs_and_vars self) (annotations self)
              (unannotated_names self).

Definition append_func_var (f : FuncVar) (self : Analyzer) : Analyzer :=
  mk_Analyzer (repo_id self) (rel_path self) (total_annotations self)
              (last_count self) (funcs_and_vars self ++ [f])
              (annotations self) (unannotated_names self).

Definition append_annotation (a : Annotation) (self : Analyzer) : Analyzer :=
  mk_Analyzer (repo_id self) (rel_path self) (total_annotations self)
              (last_count self) (funcs_and_vars self)
              (annotations self ++ [a]) (unannotated_names self).

Definition append_unannotated_name (n : string) (self : Analyzer) : Analyzer :=
  mk_Analyzer (repo_id self) (rel_path self) (total_annotations self)
              (last_count self) (funcs_and_vars self) (annotations self)
              (unannotated_names self ++ [n]).

(** ** The leaf counter *)

(** [AnnotationAnalyzer.handle_annotation_basic]: the [isinstance] chain,
    branch by branch; a node that matches no branch leaves [self] as it
    is. *)
Fixpoint handle_annotation_basic (annotation : expr) (self : Analyzer)
  : Analyzer :=
  match annotation with
  | Name _ | Constant _ => set_last_count (last_count self + 1) self
  | Subscript value slice =>
      let self := handle_annotation_basic value self in
      handle_annotation_basic slice self
  | Attribute value _ => handle_annotation_basic value self
  | BinOp left_ _ right_ =>
      let self := handle_annotation_basic left_ self in
      handle_annotation_basic right_ self
  | Call func _ => handle_annotation_basic func self
  | Slice lower upper _ =>
      let self := match lower with
                  | Some e => handle_annotation_basic e self
                  | None => self
                  end in
      match upper with
      | Some e => handle_annotation_basic e self
      | None => self
      end
  | Tuple elts | List elts =>
      fold_left (fun self element => handle_annotation_basic element self)
                elts self
  | UnaryOp _ operand => handle_annotation_basic operand self
  | BoolOp _ _ | Dict _ _ | IfExp _ _ _ | Lambda _ | Set_ _ | Compare _ _
  | JoinedStr _ | OtherExpr _ _ => self
  end.

(** The count a caller reads after resetting the accumulator and running
    the counter once. *)
Definition classify (annotation : expr) (self : Analyzer) : Z :=
  last_count (handle_annotation_basic annotation (set_last_count 0 self)).

(** ** Exceptions *)

(** A method either returns or raises; [Raise] carries the exception's
    class name. *)
Inductive result (A : Type) : Type :=
| Ok (a : A)
| Raise (exn : string).
Arguments Ok {A} a.
Arguments Raise {A} exn.

Definition bind {A B : Type} (c : result A) (k : A -> result B) : result B :=
  match c with
  | Ok a => k a
  | Raise exn => Raise exn
  end.

Notation "x <- c ;; k" := (bind c (fun x => k))
  (at level 61, c at next level, right associativity).

(** A [for] loop whose body may raise: the loop stops at the first
    exception. *)
Definition for_each {A S : Type} (f : A -> S -> result S)
  : list A -> S -> result S :=
  fix loop (l : list A) (s : S) : result S :=
    match l with
    | [] => Ok s
    | x :: rest => s' <- f x s ;; loop rest s'
    end.

(** [l[0]]: raises [IndexError] on the empty list. *)
Definition item0 {A : Type} (l : list A) : result A :=
  match l with
  | x :: _ => Ok x
  | [] => Raise "IndexError"
  end.

(** ** The base-type resolver *)

(** [str.split(sep)] for a one-character separator: the pieces between the
    occurrences of [sep]; never the empty list.  The three separators used
    below are ASCII, so splitting the UTF-8 bytes agrees with splitting the
    code points. *)
Fixpoint split (sep : ascii) (s : string) : list string :=
  match s with
  | EmptyString => [EmptyString]
  | String c rest =>
      if Ascii.eqb c sep then EmptyString :: split sep rest
      else match split sep rest with
           | piece :: pieces => String c piece :: pieces
           | [] => [String c EmptyString]
           end
  end.

(** The list literal of [get_base_type], in its order. *)
Definition python_types : list string :=
  ["None"; "bool"; "int"; "float"; "complex"; "str";
   "bytes"; "bytearray"; "memoryview"; "range";
   "tuple"; "list"; "set"; "frozenset"; "dict";
   "ellipsis"; "..."; "type"; "object";
   "NoneType"; "Any"; "Union"; "Optional"; "Callable";
   "TypeVar"; "Generic"; "ClassVar"; "Final";
   "Literal"; "Annotated"; "TypedDict"; "Protocol";
   "runtime_checkable"; "AbstractSet"].

(** [x in l] on a list of strings. *)
Definition str_in (x : string) (l : list string) : bool :=
  existsb (String.eqb x) l.

(** [AnnotationAnalyzer.get_base_type]; the argument is [Optional[str]],
    [None] being Python's [None]. *)
Definition get_base_type (unparsed_annotation : option string)
  : result string :=
  match unparsed_annotation with
  | None | Some EmptyString => Ok ""
  | Some unparsed_annotation =>
      p1 <- item0 (split "[" unparsed_annotation) ;;
      p2 <- item0 (split "," p1) ;;
      base_type <- item0 (split " " p2) ;;
      if str_in base_type python_types then
        if String.eqb base_type "..." then Ok "ellipsis" else Ok base_type
      else Ok "user_defined"
  end.

(** ** The declaration walker *)

(** The test of one statement in [contains_return]. *)
Definition returns_something (statement : stmt) : bool :=
  match statement with
  | Return value =>
      match value with
      | None => false
      | Some (Constant CNone) => false
      | Some _ => true
      end
  | _ => false
  end.

(** [AnnotationAnalyzer.contains_return]: the loop over [body]. *)
Fixpoint contains_return (body : list stmt) : bool :=
  match body with
  | [] => false
  | statement :: rest =>
      if returns_something statement then true else contains_return rest
  end.

(** [AnnotationAnalyzer.get_var_name] *)
Fixpoint get_var_name (element : expr) : string :=
  match element with
  | Name id => id
  | Attribute _ attr => attr
  | Subscript value _ => get_var_name value
  | _ => ""
  end.

Section Walker.

(** [ast.unparse], the standard library's renderer of an expression as
    source text. *)
Variable unparse : expr -> string.

(** [AnnotationAnalyzer.completely_handle_annotation], statement by
    statement. *)
Definition completely_handle_annotation (annot : expr)
    (func_var_name : string) (lineno : Z) (fvt : FuncVarType)
    (annot_name : string) (self : Analyzer) : result Analyzer :=
  let self := set_total_annotations (total_annotations self + 1) self in
  let self := handle_annotation_basic annot self in
  let self := set_last_count 0 self in
  base_type <- get_base_type (Some (unparse annot)) ;;
  let annot := mk_Annotation (repo_id self) (rel_path self) func_var_name
                             lineno annot_name fvt base_type
                             (unparse annot) (last_count self) in
  Ok (append_annotation annot self).

(** The body of the first loop of [visit_FunctionDef], on the pair of the
    local [func] and [self]. *)
Definition visit_arg (func_name : string) (func_lineno : Z) (a : arg)
    (st : FuncVar * Analyzer) : result (FuncVar * Analyzer) :=
  let (func, self) := st in
  let func := increase_num_var func in
  match annotation a with
  | Some ann =>
      let func := increase_num_var_annotated func in
      self <- completely_handle_annotation ann func_name func_lineno
                FUNCTION_ARG (arg_name a) self ;;
      Ok (func, self)
  | None => Ok (func, self)
  end.

(** [AnnotationAnalyzer.visit_FunctionDef]; [generic_visit] is the
    traversal of the node's children, which the visitor supplies. *)
Definition visit_FunctionDef
    (generic_visit : list stmt -> Analyzer -> result Analyzer)
    (name : string) (lineno : Z) (args : list arg)
    (returns : option expr) (body : list stmt) (self : Analyzer)
  : result Analyzer :=
  let func_lineno := lineno in
  let func_name := name in
  let func := new_FuncVar (repo_id self) (rel_path self) func_name
                          func_lineno in
  st <- for_each (visit_arg func_name func_lineno) args (func, self) ;;
  let (func, self) := st in
  st <- match returns with
        | Some r =>
            let func := increase_num_var func in
            let func := increase_num_var_annotated func in
            self <- completely_handle_annotation r func_name func_lineno
                      FUNCTION_RETURN "" self ;;
            Ok (func, self)
        | None =>
            if contains_return body then Ok (increase_num_var func, self)
            else Ok (func, self)
        end ;;
  let (func, self) := st in
  let self :=
    if ((0 <? num_var_annotated func)
        && (num_var_annotated func <? num_var func))%Z
    then fold_left (fun self a => append_unannotated_name (arg_name a) self)
                   args self
    else self in
  let self := append_func_var func self in
  generic_visit body self.

(** [AnnotationAnalyzer.visit_AnnAssign] *)
Definition visit_AnnAssign (target ann : expr) (lineno : Z)
    (self : Analyzer) : result Analyzer :=
  let var_name := get_var_name target in
  let var := new_FuncVar (repo_id self) (rel_path self) var_name lineno in
  let var := increase_num_var var in
  let var := increase_num_var_annotated var in
  let self := append_func_var var self in
  completely_handle_annotation ann var_name lineno VARIABLE var_name self.

(** The site recorded for one assignment target. *)
Definition assigned_var (element : expr) (lineno : Z) (self : Analyzer)
  : Analyzer :=
  let name := get_var_name element in
  let var := new_FuncVar (repo_id self) (rel_path self) name lineno in
  let var := increase_num_var var in
  append_func_var var self.

(** [AnnotationAnalyzer.visit_Assign]; its final [generic_visit] only
    meets expressions, for which the class has no [visit_] method. *)
Definition visit_Assign (targets : list expr) (lineno : Z)
    (self : Analyzer) : Analyzer :=
  fold_left
    (fun self target =>
       match target with
       | Tuple elts =>
           fold_left (fun self element => assigned_var element lineno self)
                     elts self
       | _ => assigned_var target lineno self
       end)
    targets self.

(** [NodeVisitor.visit] on a statement: the [visit_] method of its class
    when there is one, [generic_visit] (each child in turn) otherwise. *)
Fixpoint visit (node : stmt) (self : Analyzer) : result Analyzer :=
  match node with
  | FunctionDef name lineno args returns body =>
      visit_FunctionDef (for_each visit) name lineno args returns body self
  | AnnAssign target ann lineno => visit_AnnAssign target ann lineno self
  | Assign targets lineno => Ok (visit_Assign targets lineno self)
  | Return _ => Ok self
  | OtherStmt _ children => for_each visit children self
  end.

(** [NodeVisitor.visit] on the [ast.Module]. *)
Definition visit_Module (m : module) (self : Analyzer) : result Analyzer :=
  for_each visit m self.

End Walker.

(** The two totals compared under [# CHECKING CALCULATIONS] in
    [analyze_repository]. *)
Definition total_annotated (repo_annotations : Analyzer) : Z :=
  Z.of_nat (List.length (annotations repo_annotations)).

Definition total_func_vars_annotated (repo_annotations : Analyzer) : Z :=
  fold_left (fun total func_var => total + num_var_annotated func_var)
            (funcs_and_vars repo_annotations) 0.

(** ** Reference definitions

    What the properties below compare the code with: each one is written
    from the description of the behaviour, not from the method. *)

(** The anomalous shapes: the seven named ones and every node kind that is
    not one of the ten well-formed shapes. *)
Definition anomalous (e : expr) : bool :=
  match e with
  | BoolOp _ _ | Dict _ _ | IfExp _ _ _ | Lambda _ | Set_ _ | Compare _ _
  | JoinedStr _ | OtherExpr _ _ => true
  | _ => false
  end.

Definition opt_all (p : expr -> bool) (o : option expr) : bool :=
  match o with
  | Some e => p e
  | None => true
  end.

(** A tree built only from the well-formed shapes (any binary operator is
    accepted, [|] among them). *)
Fixpoint well_formed (e : expr) : bool :=
  match e with
  | Name _ | Constant _ => true
  | Subscript v s => well_formed v && well_formed s
  | Attribute v _ => well_formed v
  | BinOp l _ r => well_formed l && well_formed r
  | Call f args => well_formed f && forallb well_formed args
  | Slice lo up st =>
      opt_all well_formed lo && opt_all well_formed up
      && opt_all well_formed st
  | List elts | Tuple elts => forallb well_formed elts
  | UnaryOp _ o => well_formed o
  | _ => false
  end.

(** The name and literal leaves reachable by the traversal rules: a name or
    a constant is a leaf; a subscript gives the leaves of its base, then of
    its arguments; an attribute those of its left-hand value; a binary
    operation those of both operands; a call those of the callee; a slice
    those of the bounds present; a sequence literal those of every element;
    a unary operation those of its operand; anything else none. *)
Fixpoint reachable_leaves (e : expr) : list expr :=
  match e with
  | Name _ | Constant _ => [e]
  | Subscript v s => reachable_leaves v ++ reachable_leaves s
  | Attribute v _ => reachable_leaves v
  | BinOp l _ r => reachable_leaves l ++ reachable_leaves r
  | Call f _ => reachable_leaves f
  | Slice lo up _ =>
      match lo with Some a => reachable_leaves a | None => [] end
      ++ match up with Some b => reachable_leaves b | None => [] end
  | List elts | Tuple elts => flat_map reachable_leaves elts
  | UnaryOp _ o => reachable_leaves o
  | _ => []
  end.

Definition leaf_total (e : expr) : Z :=
  Z.of_nat (List.length (reachable_leaves e)).

(** The traversal reaches at least one name or literal. *)
Fixpoint has_leaf (e : expr) : bool :=
  match e with
  | Name _ | Constant _ => true
  | Subscript v s => has_leaf v || has_leaf s
  | Attribute v _ => has_leaf v
  | BinOp l _ r => has_leaf l || has_leaf r
  | Call f _ => has_leaf f
  | Slice lo up _ =>
      match lo with Some a => has_leaf a | None => false end
      || match up with Some b => has_leaf b | None => false end
  | List elts | Tuple elts => existsb has_leaf elts
  | UnaryOp _ o => has_leaf o
  | _ => false
  end.

(** A property of an optional child: it holds of the child when there is
    one. *)
Definition opt_holds (P : expr -> Prop) (o : option expr) : Prop :=
  match o with
  | Some e => P e
  | None => True
  end.

(** Adding [n] to the accumulator and touching nothing else. *)
Definition bump (n : Z) (self : Analyzer) : Analyzer :=
  set_last_count (last_count self + n) self.

(** The first of [[], [,] and the space ends the head token. *)
Definition is_delimiter (c : ascii) : bool :=
  Ascii.eqb c "[" || Ascii.eqb c "," || Ascii.eqb c " ".

(** The substring of [s] up to the first delimiter. *)
Fixpoint head_token (s : string) : string :=
  match s with
  | EmptyString => EmptyString
  | String c rest =>
      if is_delimiter c then EmptyString else String c (head_token rest)
  end.

(** The substring of [s] up to the first [sep]. *)
Fixpoint before (sep : ascii) (s : string) : string :=
  match s with
  | EmptyString => EmptyString
  | String c rest =>
      if Ascii.eqb c sep then EmptyString else String c (before sep rest)
  end.

(** What the resolver answers for a head token. *)
Definition qualifier (head : string) : string :=
  if str_in head python_types then
    if String.eqb head "..." then "ellipsis" else head
  else "user_defined".

(** The statement kinds that open a new function or class body: a return
    below one of them belongs to that inner definition. *)
Definition opens_scope (kind : string) : bool :=
  String.eqb kind "AsyncFunctionDef" || String.eqb kind "ClassDef".

(** The function whose body is [body] has a return statement with a
    non-null value: at the top of the body or nested in its compound
    statements, nested definitions apart. *)
Fixpoint returns_value (statement : stmt) : bool :=
  match statement with
  | Return _ => returns_something statement
  | OtherStmt kind children =>
      negb (opens_scope kind) && existsb returns_value children
  | _ => false
  end.

Definition body_returns_value (body : list stmt) : bool :=
  existsb returns_value body.

(** The names of the arguments that carry no annotation, in order. *)
Definition is_annotated (a : arg) : bool :=
  match annotation a with
  | Some _ => true
  | None => false
  end.

Definition unannotated_arg_names (args : list arg) : list string :=
  map arg_name (filter (fun a => negb (is_annotated a)) args).

(** The bounds a declaration site should satisfy. *)
Definition site_bounded (f : FuncVar) : Prop :=
  0 <= num_var_annotated f <= num_var f.

(** The walker's books: the counter of annotations agrees with the list of
    records, the annotated bindings of the recorded sites plus [extra] (those
    of a site still under construction) add up to the number of records, and
    every recorded site is bounded. *)
Definition balanced (extra : Z) (self : Analyzer) : Prop :=
  total_annotations self = total_annotated self
  /\ total_func_vars_annotated self + extra = total_annotated self
  /\ Forall site_bounded (funcs_and_vars self).

(** The loop invariant of [visit_FunctionDef]: [func] is the site under
    construction. *)
Definition site_in_progress (st : FuncVar * Analyzer) : Prop :=
  balanced (num_var_annotated (fst st)) (snd st) /\ site_bounded (fst st).

(** The examples used below. *)

(** [Optional[Union[str, int]]] *)
Definition optional_union_str_int : expr :=
  Subscript (Name "Optional")
            (Subscript (Name "Union") (Tuple [Name "str"; Name "int"])).

(** [def f(a: int, b): pass] *)
Definition def_partial : stmt :=
  FunctionDef "f" 1 [mk_arg "a" (Some (Name "int")); mk_arg "b" None] None
              [OtherStmt "Pass" []].

(** [def f(x):] / [if x:] / [return 1] *)
Definition def_nested_return : stmt :=
  FunctionDef "f" 1 [mk_arg "x" None] None
              [OtherStmt "If" [Return (Some (Constant (CInt 1)))]].

(** The analyzer [AnnotationAnalyzer()] with its default arguments. *)
Definition default_Analyzer : Analyzer := new_Analyzer (-1) "".

(** * The rest of the analyzer module *)

(** [AnnotationAnalyzer.check_constant] *)
Definition check_constant (annot : expr) : bool :=
  match annot with
  | Constant _ => true
  | UnaryOp op operand =>
      match op with
      | USub =>
          match operand with
          | Constant _ => true
          | _ => false
          end
      | _ => false
      end
  | _ => false
  end.

(** The targets [visit_Assign] records a site for: the elements of a tuple
    target, the target itself otherwise. *)
Definition assigned_elements (target : expr) : list expr :=
  match target with
  | Tuple elts => elts
  | _ => [target]
  end.

(** ** Handing a module's results to the database helper *)

(** [s[:n]] for a non-negative [n]: the first [n] characters of [s], all of
    [s] when it is shorter.  A character is one element of the [string],
    which is exact for ASCII text. *)
Fixpoint slice_to (n : nat) (s : string) {struct s} : string :=
  match n, s with
  | S n', String c rest => String c (slice_to n' rest)
  | _, _ => EmptyString
  end.

(** The attribute [func_var_type] of an [Annotation] object: the analyzer
    stores a member of the enum, [convert_fvt_to_str] overwrites it with a
    [str]. *)
Inductive fvt_value : Type :=
| AsEnum (t : FuncVarType)
| AsStr (s : string).

(** An [Annotation] object while it is being prepared for the database. *)
Record AnnotationObj : Type := mk_AnnotationObj {
  o_repo_id : Z;
  o_relative_path : string;
  o_func_var_name : string;
  o_lineno : Z;
  o_annot_name : string;
  o_func_var_type : fvt_value;
  o_base_type : string;
  o_entire_annotation : string;
  o_count : Z
}.

(** The object as the analyzer created it. *)
Definition as_object (a : Annotation) : AnnotationObj :=
  mk_AnnotationObj (a_repo_id a) (a_relative_path a) (func_var_name a)
                   (a_lineno a) (annot_name a) (AsEnum (func_var_type a))
                   (base_type a) (entire_annotation a) (count a).

Definition set_func_var_type (v : fvt_value) (a : AnnotationObj)
  : AnnotationObj :=
  mk_AnnotationObj (o_repo_id a) (o_relative_path a) (o_func_var_name a)
                   (o_lineno a) (o_annot_name a) v (o_base_type a)
                   (o_entire_annotation a) (o_count a).

(** The body of the loop of [convert_fvt_to_str]: the three comparisons
    with the members of the enum, which a [str] fails. *)
Definition convert_fvt (annotation : AnnotationObj) : result AnnotationObj :=
  match o_func_var_type annotation with
  | AsEnum FUNCTION_ARG => Ok (set_func_var_type (AsStr "argument") annotation)
  | AsEnum FUNCTION_RETURN => Ok (set_func_var_type (AsStr "return") annotation)
  | AsEnum VARIABLE => Ok (set_func_var_type (AsStr "variable") annotation)
  | AsStr _ => Raise "ValueError"
  end.

(** [convert_fvt_to_str]: the objects of the list, converted in order. *)
Fixpoint convert_fvt_to_str (annotations : list AnnotationObj)
  : result (list AnnotationObj) :=
  match annotations with
  | [] => Ok []
  | annotation :: rest =>
      annotation <- convert_fvt annotation ;;
      rest <- convert_fvt_to_str rest ;;
      Ok (annotation :: rest)
  end.

(** [verify_name_length], the branch [isinstance(obj, FuncVar)]. *)
Definition verify_name_length_FuncVar (obj : FuncVar) : FuncVar :=
  mk_FuncVar (fv_repo_id obj) (slice_to 269 (fv_relative_path obj))
             (slice_to 134 (fv_name obj)) (fv_lineno obj) (num_var obj)
             (num_var_annotated obj).

(** [verify_name_length], the branch [isinstance(obj, Annotation)]:
    slicing [func_var_type] raises [TypeError] while it is still a member
    of the enum. *)
Definition verify_name_length_Annotation (obj : AnnotationObj)
  : result AnnotationObj :=
  match o_func_var_type obj with
  | AsStr t =>
      Ok (mk_AnnotationObj
            (o_repo_id obj) (slice_to 269 (o_relative_path obj))
            (slice_to 134 (o_func_var_name obj)) (o_lineno obj)
            (slice_to 134 (o_annot_name obj)) (AsStr (slice_to 44 t))
            (slice_to 44 (o_base_type obj))
            (slice_to 539 (o_entire_annotation obj)) (o_count obj))
  | AsEnum _ => Raise "TypeError"
  end.









(** ** Counting the names of unannotated arguments *)

(** A [dict] from [str] to [int], its items in insertion order. *)
Definition dict : Type := list (string * Z).

(** [k in d] *)
Definition dict_in (k : string) (d : dict) : bool :=
  existsb (fun item => String.eqb (fst item) k) d.

(** [d[k]]: raises [KeyError] when [k] is missing. *)
Fixpoint dict_getitem (k : string) (d : dict) : result Z :=
  match d with
  | [] => Raise "KeyError"
  | (k', v) :: rest => if String.eqb k' k then Ok v else dict_getitem k rest
  end.

(** [d[k] = v]: the value of an existing key is replaced where it stands, a
    new key goes to the end. *)
Fixpoint dict_setitem (k : string) (v : Z) (d : dict) : dict :=
  match d with
  | [] => [(k, v)]
  | (k', v') :: rest =>
      if String.eqb k' k then (k', v) :: rest
      else (k', v') :: dict_setitem k v rest
  end.

(** The body of the loop over [unannotated_names] in
    [get_unannotated_arg_names]. *)
Definition count_unannotated_name (unannot_name : string)
    (unannotated_names_dict : dict) : result dict :=
  if negb (dict_in unannot_name unannotated_names_dict)
  then Ok (dict_setitem unannot_name 1 unannotated_names_dict)
  else
    v <- dict_getitem unannot_name unannotated_names_dict ;;
    Ok (dict_setitem unannot_name (v + 1) unannotated_names_dict).

(** The loop itself, for the names one analysed file surfaced. *)
Definition count_unannotated_names (names : list string) (d : dict)
  : result dict :=
  for_each count_unannotated_name names d.

(** The number a key stands for in the table of counts: its value, 0 when
    it is missing. *)
Definition count_of (k : string) (d : dict) : Z :=
  match dict_getitem k d with
  | Ok v => v
  | Raise _ => 0
  end.

(** The sum [main_unannotated] takes over the values. *)
Definition dict_total (d : dict) : Z :=
  fold_left (fun total item => total + snd item) d 0.

(** ** What a traversal records *)

(** The shape of a record: it carries the analyzer's repository and path,
    its base type is the resolver's answer for its text, and its
    [annot_name] is empty for a return and the name of the variable for a
    variable. *)
Definition well_emitted (repo : Z) (path : string) (a : Annotation) : Prop :=
  a_repo_id a = repo
  /\ a_relative_path a = path
  /\ get_base_type (Some (entire_annotation a)) = Ok (base_type a)
  /\ match func_var_type a with
     | FUNCTION_ARG => True
     | FUNCTION_RETURN => annot_name a = ""
     | VARIABLE => annot_name a = func_var_name a
     end.

Definition records_well_emitted (repo : Z) (path : string) (self : Analyzer)
  : Prop :=
  repo_id self = repo /\ rel_path self = path
  /\ Forall (well_emitted repo path) (annotations self).

(** The names [completely_handle_annotation] is called with, for each
    kind. *)
Definition called_with (fvt : FuncVarType) (name aname : string) : Prop :=
  match fvt with
  | FUNCTION_ARG => True
  | FUNCTION_RETURN => aname = ""
  | VARIABLE => aname = name
  end.

(** The site [visit_Assign] records for one element. *)
Definition plain_site (self : Analyzer) (lineno : Z) (element : expr)
  : FuncVar :=
  mk_FuncVar (repo_id self) (rel_path self) (get_var_name element) lineno 1 0.

(** The answers of the resolver: the empty string, the sentinel, or one of
    the listed types other than the ellipsis marker. *)
Definition resolved (out : string) : Prop :=
  out = "" \/ out = "user_defined" \/ (In out python_types /\ out <> "...").

(** The [str] [convert_fvt_to_str] writes for a kind. *)
Definition fvt_str (t : FuncVarType) : string :=
  match t with
  | FUNCTION_ARG => "argument"
  | FUNCTION_RETURN => "return"
  | VARIABLE => "variable"
  end.

(** [short] is [long] cut after at most [n] characters. *)
Definition truncated_to (n : nat) (long short : string) : Prop :=
  String.length short = Nat.min n (String.length long)
  /\ exists rest, long = (short ++ rest)%string.



(** * The module [scripts/analyzer/slim_analyzer.py] *)

Module SlimAnalyzer.

(** [FunctionFinder.visit] on a statement, [fount_function] being the
    attribute of that name: [visit_FunctionDef] for a function definition,
    the traversal of the children for every other node. *)
Fixpoint visit (function_name : string) (node : stmt)
    (fount_function : option stmt) : option stmt :=
  match node with
  | FunctionDef name _ _ _ body =>
      match fount_function with
      | Some _ => fount_function
      | None =>
          if String.eqb name function_name then Some node
          else fold_left (fun found child => visit function_name child found)
                         body fount_function
      end
  | OtherStmt _ children =>
      fold_left (fun found child => visit function_name child found)
                children fount_function
  | _ => fount_function
  end.

(** [FunctionFinder(function_name).visit(tree)] on a module, for a
    traversal that returns: the attribute [fount_function] it leaves
    behind.  The recursion limit of the interpreter is not modelled: a
    traversal that exhausts it raises instead of returning, and
    [get_function_ast], which catches that, then returns [None] whatever
    the finder holds. *)
Definition visit_tree (function_name : string) (tree : module)
  : option stmt :=
  fold_left (fun found child => visit function_name child found) tree None.

(** [sep.join(pieces)] for a one-character [sep]. *)
Fixpoint join (sep : ascii) (pieces : list string) : string :=
  match pieces with
  | [] => EmptyString
  | piece :: rest =>
      match rest with
      | [] => piece
      | _ :: _ => (piece ++ String sep (join sep rest))%string
      end
  end.

(** [get_repo_from_file_path]; [sep] is [os.sep]. *)
Definition get_repo_from_file_path (sep : ascii) (file_path : string)
  : string :=
  let directories := split sep file_path in
  join sep (firstn 12 directories).

(** A row of the table [full_annot]. *)
Definition full_row : Type := (Z * string * string * Z * Z)%type.

(** [l[-1]] guarded by the truth of [l]: nothing for the empty list. *)
Fixpoint last_item {A : Type} (l : list A) : option A :=
  match l with
  | [] => None
  | x :: rest =>
      match rest with
      | [] => Some x
      | _ :: _ => last_item rest
      end
  end.

(** [get_repos_to_check] *)
Definition get_repos_to_check (sep : ascii) (full_list : list full_row)
    (last_repo_checked : Z) : list (Z * string) :=
  fold_left
    (fun (repos_to_check : list (Z * string)) (row : full_row) =>
       let '(repo_id, file_path, _, _, _) := row in
       let repo_path := get_repo_from_file_path sep file_path in
       match last_item repos_to_check with
       | Some last =>
           if (fst last =? repo_id)%Z then repos_to_check
           else (repos_to_check ++ [(repo_id, repo_path)])%list
       | None => (repos_to_check ++ [(repo_id, repo_path)])%list
       end)
    full_list [].

End SlimAnalyzer.

(** The nodes of a statement in the order of a depth-first traversal, the
    statement first. *)
Fixpoint preorder (node : stmt) : list stmt :=
  node :: match node with
          | FunctionDef _ _ _ _ body => flat_map preorder body
          | OtherStmt _ children => flat_map preorder children
          | _ => []
          end.

(** A function definition of the given name. *)
Definition is_def_named (function_name : string) (node : stmt) : bool :=
  match node with
  | FunctionDef name _ _ _ _ => String.eqb name function_name
  | _ => false
  end.

(** No two neighbours of the list are equal. *)
Fixpoint no_equal_neighbours (l : list Z) : Prop :=
  match l with
  | [] => True
  | x :: rest =>
      match rest with
      | [] => True
      | y :: _ => x <> y /\ no_equal_neighbours rest
      end
  end.

(** The identifier and the path of a row. *)
Definition row_id (row : SlimAnalyzer.full_row) : Z :=
  let '(repo_id, _, _, _, _) := row in repo_id.

Definition row_path (row : SlimAnalyzer.full_row) : string :=
  let '(_, file_path, _, _, _) := row in file_path.

(** * The module [scripts/data_retrieval/merge_repository_data.py] *)

Module Merge.

(** A repository as the retrieval writes it to the JSON files: an object
    with the keys [name], [url], [stars] and [created_at]. *)
Record repo : Type := mk_repo {
  name : string;
  url : string;
  stars : Z;
  created_at : string
}.

(** [eq_repos] (its messages are printed, not returned). *)
Definition eq_repos (repo1 repo2 : repo) : bool :=
  String.eqb (name repo1) (name repo2)
  && String.eqb (created_at repo1) (created_at repo2).

(** [get_repo_most_stars] *)
Definition get_repo_most_stars (j0 j1 j2 j3 j4 : repo) : repo :=
  let repo_with_most_stars := j0 in
  let repo_with_most_stars :=
    if (stars repo_with_most_stars <? stars j1)%Z then j1
    else repo_with_most_stars in
  let repo_with_most_stars :=
    if (stars repo_with_most_stars <? stars j2)%Z then j2
    else repo_with_most_stars in
  let repo_with_most_stars :=
    if (stars repo_with_most_stars <? stars j3)%Z then j3
    else repo_with_most_stars in
  let repo_with_most_stars :=
    if (stars repo_with_most_stars <? stars j4)%Z then j4
    else repo_with_most_stars in
  repo_with_most_stars.

(** [l.pop(i)] for an index within the list: the list without its
    [i]-th entry. *)
Definition pop {A : Type} (i : nat) (l : list A) : list A :=
  (firstn i l ++ skipn (S i) l)%list.

(** The loop of [remove_repo_from_top] from index [i] on, with
    [iterations] rounds to go; an index past the end raises [IndexError],
    which leaves the loop. *)
Fixpoint remove_from (repository : repo) (iterations i : nat)
    (repo_list : list repo) : list repo :=
  match iterations with
  | O => repo_list
  | S iterations =>
      match nth_error repo_list i with
      | None => repo_list
      | Some r =>
          if eq_repos repository r
          then remove_from repository iterations (S i) (pop i repo_list)
          else remove_from repository iterations (S i) repo_list
      end
  end.

(** [remove_repo_from_top]; [num] defaults to 10. *)
Definition remove_repo_from_top (repository : repo) (repo_list : list repo)
    (num : nat) : list repo :=
  remove_from repository num 0 repo_list.

(** [is_in_repo] *)
Definition is_in_repo (repository : repo) (repo_list : list repo) : bool :=
  existsb (fun r => eq_repos r repository) repo_list.

(** The two loops of [validate_json] over the data read from the file;
    the result is the three figures of its last message: the duplicates,
    the order errors and the number of entries kept. *)
Definition validate_json (data : list repo) : Z * Z * nat :=
  let '(valid_data, duplicates) :=
    fold_left
      (fun (st : list repo * Z) r =>
         let '(valid_data, duplicates) := st in
         if is_in_repo r valid_data then (valid_data, duplicates + 1)
         else ((valid_data ++ [r])%list, duplicates))
      data ([], 0) in
  let '(order_errors, last_star) :=
    fold_left
      (fun (st : Z * Z) r =>
         let '(order_errors, last_star) := st in
         let current_star := stars r in
         (if negb (current_star <=? last_star)%Z then order_errors + 1
          else order_errors,
          current_star))
      data (0, 1000000) in
  (duplicates, order_errors, List.length valid_data).

(** Putting [x] into a list sorted by decreasing stars, before the first
    entry that has no more stars than [x]. *)
Fixpoint insert_by_stars (x : repo) (l : list repo) : list repo :=
  match l with
  | [] => [x]
  | y :: rest =>
      if (stars y <=? stars x)%Z then x :: y :: rest
      else y :: insert_by_stars x rest
  end.

(** [data.sort(key=lambda x: x['stars'], reverse=True)]: the entries by
    decreasing stars, those with equal stars in their former order, as the
    stable sort of Python leaves them. *)
Definition sort_by_stars (data : list repo) : list repo :=
  fold_right insert_by_stars [] data.

(** [correct_json] between reading the file and writing it back: the
    data sorted, then the first of every group of equal repositories. *)
Definition correct_json (data : list repo) : list repo :=
  let data := sort_by_stars data in
  fold_left
    (fun valid_data r =>
       if negb (is_in_repo r valid_data) then (valid_data ++ [r])%list
       else valid_data)
    data [].

End Merge.

(** Every entry has at least as many stars as the entries after it. *)
Fixpoint descending (l : list Merge.repo) : Prop :=
  match l with
  | [] => True
  | x :: rest =>
      Forall (fun y => Merge.stars y <= Merge.stars x) rest /\ descending rest
  end.

(** No entry equals, in the sense of [eq_repos], an entry after it. *)
Fixpoint distinct_repos (l : list Merge.repo) : Prop :=
  match l with
  | [] => True
  | x :: rest =>
      Forall (fun y => Merge.eq_repos x y = false) rest
      /\ distinct_repos rest
  end.

(** * The module [scripts/sql/read_repository_json.py] *)

Module RepositoryJson.

(** [s.replace(old, new)] for one-character [old] and [new]. *)
Fixpoint replace (old new : ascii) (s : string) : string :=
  match s with
  | EmptyString => EmptyString
  | String c rest =>
      String (if Ascii.eqb c old then new else c) (replace old new rest)
  end.

(** [s[:-1]]: [s] without its last character, the empty string staying
    empty. *)
Fixpoint drop_last (s : string) : string :=
  match s with
  | EmptyString => EmptyString
  | String c rest =>
      match rest with
      | EmptyString => EmptyString
      | String _ _ => String c (drop_last rest)
      end
  end.

(** [Repo.format_datetime] *)
Definition format_datetime (dt : string) : string :=
  drop_last (replace "T" " " dt).

Record Repo : Type := mk_Repo {
  user : string;
  name : string;
  created_at : string;
  clone_url : string;
  stars : Z
}.

(** [a, b = l]: raises [ValueError] unless [l] has two elements. *)
Definition unpack2 {A : Type} (l : list A) : result (A * A) :=
  match l with
  | [a; b] => Ok (a, b)
  | _ => Raise "ValueError"
  end.

(** [Repo.__init__] *)
Definition new_Repo (name url : string) (stars : Z)
    (creation_datetime : string) : result Repo :=
  p <- unpack2 (split "/" name) ;;
  Ok (mk_Repo (fst p) (snd p) (format_datetime creation_datetime) url stars).

Section Years.

(** The builtin [int] on a [str]: the number it denotes, or [ValueError]. *)
Variable int : string -> result Z.

(** [Repo.get_year] *)
Definition get_year (self : Repo) : result Z :=
  int (slice_to 4 (created_at self)).

(** The loop shared by [RepoHandler.get_longest_repo_name] and
    [RepoHandler.get_longest_clone_url], [field] being [name] or
    [clone_url]; the year starts as [int()], which is 0. *)
Definition get_longest (field : Repo -> string) (repos : list Repo)
  : result (Z * nat * string) :=
  st <- for_each
          (fun repo (st : string * Z) =>
             let '(longest, year) := st in
             if (String.length longest <? String.length (field repo))%nat
             then year <- get_year repo ;; Ok (field repo, year)
             else Ok (longest, year))
          repos (EmptyString, 0) ;;
  let '(longest, year) := st in
  Ok (year, String.length longest, longest).


Definition get_longest_clone_url (repos : list Repo)
  : result (Z * nat * string) :=
  get_longest clone_url repos.

End Years.

End RepositoryJson.

(** The number of times a character occurs in a text. *)
Definition occurrences (c : ascii) (s : string) : nat :=
  count_occ ascii_dec (list_ascii_of_string s) c.

(** * Properties *)

(** ** Induction along the traversal *)

(** Induction on an expression with a hypothesis for exactly the subtrees
    the counter descends into. *)
Section TraversalInduction.

Variable P : expr -> Prop.

Hypothesis P_Name : forall id, P (Name id).
Hypothesis P_Constant : forall v, P (Constant v).
Hypothesis P_Subscript : forall v s, P v -> P s -> P (Subscript v s).
Hypothesis P_Attribute : forall v a, P v -> P (Attribute v a).
Hypothesis P_BinOp : forall l op r, P l -> P r -> P (BinOp l op r).
Hypothesis P_Call : forall f args, P f -> P (Call f args).
Hypothesis P_Slice :
  forall lo up st,
    opt_holds P lo -> opt_holds P up -> P (Slice lo up st).
Hypothesis P_List : forall elts, Forall P elts -> P (List elts).
Hypothesis P_Tuple : forall elts, Forall P elts -> P (Tuple elts).
Hypothesis P_UnaryOp : forall op o, P o -> P (UnaryOp op o).
Hypothesis P_anomalous : forall e, anomalous e = true -> P e.

Lemma traversal_ind : forall e, P e.
Proof.
  fix IH 1.
  assert (IHs : forall l, Forall P l).
  { fix IHl 1. intros [|x l]; constructor; [apply IH | apply IHl]. }
  intros [id|v|v s|v a|l op r|f args|lo up st|elts|elts|op o
          |op vs|ks vs|t b o|b|elts|l cs|vs|k cs].
  - apply P_Name.
  - apply P_Constant.
  - apply P_Subscript; apply IH.
  - apply P_Attribute; apply IH.
  - apply P_BinOp; apply IH.
  - apply P_Call; apply IH.
  - apply P_Slice; [destruct lo | destruct up]; simpl; auto.
  - apply P_List, IHs.
  - apply P_Tuple, IHs.
  - apply P_UnaryOp; apply IH.
  - now apply P_anomalous.
  - now apply P_anomalous.
  - now apply P_anomalous.
  - now apply P_anomalous.
  - now apply P_anomalous.
  - now apply P_anomalous.
  - now apply P_anomalous.
  - now apply P_anomalous.
Qed.

End TraversalInduction.

(** ** The leaf counter only moves [last_count] *)

Lemma set_last_count_set (a b : Z) (self : Analyzer) :
  set_last_count a (set_last_count b self) = set_last_count a self.
Proof. reflexivity. Qed.

Lemma set_last_count_same (self : Analyzer) :
  set_last_count (last_count self) self = self.
Proof. now destruct self. Qed.

Lemma last_count_set (a : Z) (self : Analyzer) :
  last_count (set_last_count a self) = a.
Proof. reflexivity. Qed.

Lemma bump_0 (self : Analyzer) : bump 0 self = self.
Proof.
  unfold bump. rewrite Z.add_0_r. apply set_last_count_same.
Qed.

Lemma bump_bump (n m : Z) (self : Analyzer) :
  bump m (bump n self) = bump (n + m) self.
Proof.
  unfold bump. rewrite last_count_set, set_last_count_set.
  now rewrite Z.add_assoc.
Qed.

Lemma leaf_total_app (xs ys : list expr) :
  Z.of_nat (List.length (xs ++ ys))
  = Z.of_nat (List.length xs) + Z.of_nat (List.length ys).
Proof. rewrite length_app. lia. Qed.

Lemma handle_elements_bump (elts : list expr) :
  Forall (fun e => forall self,
            handle_annotation_basic e self = bump (leaf_total e) self) elts ->
  forall self,
    fold_left (fun self element => handle_annotation_basic element self)
              elts self
    = bump (Z.of_nat (List.length (flat_map reachable_leaves elts))) self.
Proof.
  induction 1 as [|e elts He _ IH]; intros self; simpl.
  - apply eq_sym, bump_0.
  - rewrite He, IH, bump_bump, leaf_total_app. reflexivity.
Qed.

(** One run of the counter adds the number of reachable leaves to the
    accumulator and changes nothing else. *)
Lemma handle_annotation_basic_bump (e : expr) :
  forall self, handle_annotation_basic e self = bump (leaf_total e) self.
Proof.
  induction e using traversal_ind; intros self; simpl;
    unfold leaf_total; simpl.
  - reflexivity.
  - reflexivity.
  - rewrite IHe1, IHe2, bump_bump, leaf_total_app. reflexivity.
  - apply IHe.
  - rewrite IHe1, IHe2, bump_bump, leaf_total_app. reflexivity.
  - apply IHe.
  - destruct lo as [a|], up as [b|]; simpl in *.
    + rewrite H, H0, bump_bump, leaf_total_app. reflexivity.
    + rewrite H, app_nil_r. reflexivity.
    + apply H0.
    + apply eq_sym, bump_0.
  - now apply handle_elements_bump.
  - now apply handle_elements_bump.
  - apply IHe.
  - destruct e; try discriminate; simpl; apply eq_sym, bump_0.
Qed.

Lemma classify_leaf_total (e : expr) (self : Analyzer) :
  classify e self = leaf_total e.
Proof.
  unfold classify. rewrite handle_annotation_basic_bump.
  unfold bump. rewrite !last_count_set. reflexivity.
Qed.

(** ** The leaf counter: examples and shapes *)

(** C2, as the code has it: counting [Optional[Union[str, int]]] from an
    accumulator reset to 0 gives 4, the two qualifiers [Optional] and [Union]
    being names and so leaves like [str] and [int]; this is the figure of the
    method's own docstring. *)
Theorem optional_union_counts_four :
  forall self, classify optional_union_str_int self = 4.
Proof. intros self. rewrite classify_leaf_total. reflexivity. Qed.

(** C2, as stated: the count of [Optional[Union[str, int]]] is not 3. *)
Lemma optional_union_not_three :
  classify optional_union_str_int default_Analyzer <> 3.
Proof. vm_compute. discriminate. Qed.

(** C7: on an anomalous shape (boolean operation, dict or set literal,
    conditional expression, lambda, comparison, formatted string, or any
    other node kind outside the well-formed ones) the counter returns with
    the analyzer exactly as it found it: nothing is added to the
    accumulator, a count taken from 0 is 0, and no branch of the method can
    raise. *)
Theorem anomalous_contributes_nothing :
  forall e self,
    anomalous e = true ->
    handle_annotation_basic e self = self
    /\ last_count (handle_annotation_basic e self) = last_count self + 0
    /\ classify e self = 0.
Proof.
  intros e self H.
  assert (E : forall s, handle_annotation_basic e s = s)
    by (intros s; destruct e; try discriminate; reflexivity).
  unfold classify. rewrite !E. simpl. repeat split; lia.
Qed.

Lemma anomalous_contributes_nothing_witness :
  anomalous (BoolOp Or [Name "int"; Name "str"]) = true
  /\ classify (BoolOp Or [Name "int"; Name "str"]) default_Analyzer = 0.
Proof.
  split; [reflexivity|].
  apply (anomalous_contributes_nothing
           (BoolOp Or [Name "int"; Name "str"]) default_Analyzer).
  reflexivity.
Defined.

Lemma elements_have_leaf (elts : list expr) :
  Forall (fun e => 0 < leaf_total e <-> has_leaf e = true) elts ->
  0 < Z.of_nat (List.length (flat_map reachable_leaves elts))
  <-> existsb has_leaf elts = true.
Proof.
  induction 1 as [|x elts Hx _ IH]; simpl.
  - split; [lia | discriminate].
  - rewrite leaf_total_app, orb_true_iff, <- Hx, <- IH.
    unfold leaf_total. lia.
Qed.

(** The count is positive exactly when a name or literal is reached. *)
Lemma has_leaf_positive (e : expr) :
  0 < leaf_total e <-> has_leaf e = true.
Proof.
  induction e using traversal_ind; unfold leaf_total in *; simpl.
  - split; [reflexivity | lia].
  - split; [reflexivity | lia].
  - rewrite leaf_total_app, orb_true_iff, <- IHe1, <- IHe2. lia.
  - exact IHe.
  - rewrite leaf_total_app, orb_true_iff, <- IHe1, <- IHe2. lia.
  - exact IHe.
  - rewrite leaf_total_app, orb_true_iff.
    destruct lo as [a|], up as [b|]; simpl in *.
    + rewrite <- H, <- H0. lia.
    + rewrite <- H. split; [intros; left; lia | intros [?|?]; [lia | discriminate]].
    + rewrite <- H0. split; [intros; right; lia | intros [?|?]; [discriminate | lia]].
    + split; [lia | intros [?|?]; discriminate].
  - now apply elements_have_leaf.
  - now apply elements_have_leaf.
  - exact IHe.
  - destruct e; try discriminate; simpl; split; (lia || discriminate).
Qed.

(** C8, amended: for a tree built only from the well-formed shapes, a count
    taken from an accumulator reset to 0 equals the number of name and
    literal leaves reachable by the traversal rules; it is strictly positive
    exactly when the traversal reaches at least one name or literal, and 0
    otherwise, as for the empty tuple. *)
Theorem well_formed_leaf_count :
  forall e self,
    well_formed e = true ->
    classify e self = Z.of_nat (List.length (reachable_leaves e))
    /\ (0 < classify e self <-> has_leaf e = true).
Proof.
  intros e self W. rewrite classify_leaf_total. split; [reflexivity|].
  apply has_leaf_positive.
Qed.

Lemma well_formed_leaf_count_witness :
  well_formed optional_union_str_int = true
  /\ classify optional_union_str_int default_Analyzer
     = Z.of_nat (List.length (reachable_leaves optional_union_str_int))
  /\ 0 < classify optional_union_str_int default_Analyzer.
Proof.
  destruct (well_formed_leaf_count optional_union_str_int default_Analyzer)
    as [E Pos]; [reflexivity|].
  split; [reflexivity|]. split; [exact E|]. apply Pos. reflexivity.
Defined.

(** C8, as stated: the empty tuple [()] is built only from well-formed
    shapes and its count is 0, not strictly positive. *)
Lemma empty_tuple_counts_zero :
  well_formed (Tuple []) = true
  /\ ~ 0 < classify (Tuple []) default_Analyzer.
Proof. split; [reflexivity|]. vm_compute. discriminate. Qed.

(** ** The base-type resolver *)

Lemma split_item0 (sep : ascii) (s : string) :
  item0 (split sep s) = Ok (before sep s).
Proof.
  induction s as [|c rest IH]; simpl; [reflexivity|].
  destruct (Ascii.eqb c sep); [reflexivity|].
  destruct (split sep rest) as [|piece pieces]; simpl in *.
  - discriminate.
  - now injection IH as ->.
Qed.

Lemma before_thrice (s : string) :
  before " " (before "," (before "[" s)) = head_token s.
Proof.
  induction s as [|c rest IH]; simpl; [reflexivity|].
  unfold is_delimiter.
  destruct (Ascii.eqb c "["); simpl; [reflexivity|].
  destruct (Ascii.eqb c ","); simpl; [reflexivity|].
  destruct (Ascii.eqb c " "); simpl; [reflexivity|].
  now rewrite IH.
Qed.

Lemma head_token_is_prefix (s : string) :
  exists tail,
    s = (head_token s ++ tail)%string
    /\ (tail = "" \/ exists d t, tail = String d t /\ is_delimiter d = true).
Proof.
  induction s as [|c rest [tail [E T]]]; simpl.
  - exists "". split; [reflexivity | now left].
  - destruct (is_delimiter c) eqn:D.
    + exists (String c rest). split; [reflexivity|]. right. now exists c, rest.
    + exists tail. simpl. split; [now rewrite <- E | exact T].
Qed.

Lemma head_token_has_no_delimiter (s : string) :
  forall d, In d (list_ascii_of_string (head_token s)) ->
            is_delimiter d = false.
Proof.
  induction s as [|c rest IH]; simpl; [contradiction|].
  destruct (is_delimiter c) eqn:D; simpl; [contradiction|].
  intros d [<-|H]; auto.
Qed.

Lemma get_base_type_qualifier (c : ascii) (rest : string) :
  get_base_type (Some (String c rest))
  = Ok (qualifier (head_token (String c rest))).
Proof.
  unfold get_base_type.
  rewrite split_item0. cbn [bind].
  rewrite split_item0. cbn [bind].
  rewrite split_item0. cbn [bind].
  rewrite before_thrice. unfold qualifier.
  destruct (str_in _ _); [|reflexivity].
  now destruct (String.eqb _ _).
Qed.

Lemma get_base_type_total (input : option string) :
  exists out, get_base_type input = Ok out.
Proof.
  destruct input as [[|c rest]|].
  - now exists "".
  - eexists. apply get_base_type_qualifier.
  - now exists "".
Qed.

(** C6: on a non-empty text the resolver answers for the head token, which
    is the substring up to the first [[], [,] or space (the whole text when
    there is none); the six listed pairs hold; and on every input, [None]
    included, it returns a string and raises nothing. *)
Theorem get_base_type_head_token :
  (forall c rest, exists head tail,
      String c rest = (head ++ tail)%string
      /\ (forall d, In d (list_ascii_of_string head) ->
                    is_delimiter d = false)
      /\ (tail = "" \/ exists d t, tail = String d t /\ is_delimiter d = true)
      /\ get_base_type (Some (String c rest)) = Ok (qualifier head))
  /\ get_base_type (Some "") = Ok ""
  /\ get_base_type (Some "int") = Ok "int"
  /\ get_base_type (Some "Optional[Union[str, int]]") = Ok "Optional"
  /\ get_base_type (Some "Callable[]") = Ok "Callable"
  /\ get_base_type (Some "MyCustomClass") = Ok "user_defined"
  /\ get_base_type (Some "...") = Ok "ellipsis"
  /\ (forall input, exists out, get_base_type input = Ok out).
Proof.
  split.
  - intros c rest.
    destruct (head_token_is_prefix (String c rest)) as [tail [E T]].
    exists (head_token (String c rest)), tail.
    split; [exact E|]. split; [apply head_token_has_no_delimiter|].
    split; [exact T | apply get_base_type_qualifier].
  - repeat split; try reflexivity. apply get_base_type_total.
Qed.

(** ** Loops that may raise *)

Lemma for_each_invariant {A S : Type} (f : A -> S -> result S)
    (I : S -> Prop) (l : list A) :
  Forall (fun x => forall s, I s -> exists s', f x s = Ok s' /\ I s') l ->
  forall s, I s -> exists s', for_each f l s = Ok s' /\ I s'.
Proof.
  induction 1 as [|x l Hx _ IH]; intros s Hs; simpl.
  - now exists s.
  - destruct (Hx s Hs) as [s1 [-> H1]]. simpl. now apply IH.
Qed.

(** Induction on a statement with a hypothesis for every nested
    statement. *)
Lemma stmt_nested_ind (P : stmt -> Prop)
    (P_FunctionDef : forall name lineno args returns body,
        Forall P body -> P (FunctionDef name lineno args returns body))
    (P_AnnAssign : forall target ann lineno, P (AnnAssign target ann lineno))
    (P_Assign : forall targets lineno, P (Assign targets lineno))
    (P_Return : forall value, P (Return value))
    (P_OtherStmt : forall kind children,
        Forall P children -> P (OtherStmt kind children)) :
  forall s, P s.
Proof.
  fix IH 1.
  assert (IHs : forall l, Forall P l).
  { fix IHl 1. intros [|x l]; constructor; [apply IH | apply IHl]. }
  intros [name lineno args returns body|target ann lineno|targets lineno
          |value|kind children].
  - apply P_FunctionDef, IHs.
  - apply P_AnnAssign.
  - apply P_Assign.
  - apply P_Return.
  - apply P_OtherStmt, IHs.
Qed.

(** ** The walker keeps its books *)

Lemma sum_annotated_from (l : list FuncVar) (a : Z) :
  fold_left (fun total func_var => total + num_var_annotated func_var) l a
  = a + fold_left (fun total func_var => total + num_var_annotated func_var)
                  l 0.
Proof.
  revert a. induction l as [|f l IH]; intros a; simpl; [lia|].
  rewrite IH, (IH (num_var_annotated f)). lia.
Qed.

Lemma total_func_vars_annotated_append (f : FuncVar) (self : Analyzer) :
  total_func_vars_annotated (append_func_var f self)
  = total_func_vars_annotated self + num_var_annotated f.
Proof.
  unfold total_func_vars_annotated. simpl.
  rewrite fold_left_app. reflexivity.
Qed.

Lemma balanced_append_func_var (f : FuncVar) (self : Analyzer) (extra : Z) :
  site_bounded f ->
  balanced (extra + num_var_annotated f) self ->
  balanced extra (append_func_var f self).
Proof.
  intros B [T [S F]]. unfold balanced.
  rewrite total_func_vars_annotated_append.
  split; [exact T|]. split.
  - unfold total_annotated in *. simpl. lia.
  - simpl. apply Forall_app. split; [exact F | now constructor].
Qed.

Lemma balanced_unannotated_names (args : list arg) (extra : Z) :
  forall self,
    balanced extra self ->
    balanced extra
      (fold_left (fun self a => append_unannotated_name (arg_name a) self)
                 args self).
Proof.
  induction args as [|a args IH]; intros self B; simpl; [exact B|].
  apply IH. exact B.
Qed.

Section WalkerBooks.

Variable unparse : expr -> string.

(** The handler always returns: it has added one to the counter, left the
    accumulator at 0 and appended one record, whose count is the
    accumulator as it stands after the reset. *)
Lemma completely_handle_annotation_returns annot name lineno fvt aname self :
  exists base,
    completely_handle_annotation unparse annot name lineno fvt aname self
    = Ok (append_annotation
            (mk_Annotation (repo_id self) (rel_path self) name lineno aname
                           fvt base (unparse annot) 0)
            (set_last_count 0
               (set_total_annotations (total_annotations self + 1) self))).
Proof.
  unfold completely_handle_annotation.
  rewrite handle_annotation_basic_bump. unfold bump.
  rewrite set_last_count_set.
  destruct (get_base_type_total (Some (unparse annot))) as [base ->].
  exists base. reflexivity.
Qed.

Lemma completely_handle_annotation_balanced
    annot name lineno fvt aname self extra :
  balanced extra self ->
  exists self',
    completely_handle_annotation unparse annot name lineno fvt aname self
    = Ok self'
    /\ balanced (extra + 1) self'.
Proof.
  intros [T [S F]].
  destruct (completely_handle_annotation_returns
              annot name lineno fvt aname self) as [base ->].
  eexists. split; [reflexivity|].
  unfold balanced, total_annotated, total_func_vars_annotated in *.
  simpl. rewrite length_app. simpl. repeat split; try lia. exact F.
Qed.

Lemma visit_arg_in_progress name lineno a st :
  site_in_progress st ->
  exists st', visit_arg unparse name lineno a st = Ok st'
              /\ site_in_progress st'.
Proof.
  destruct st as [func self]. intros [B Bd]. simpl in B, Bd.
  unfold visit_arg. destruct (annotation a) as [ann|].
  - destruct (completely_handle_annotation_balanced
                ann name lineno FUNCTION_ARG (arg_name a) self _ B)
      as [self' [-> B']].
    simpl. eexists. split; [reflexivity|].
    split; simpl; [exact B' | unfold site_bounded in *; simpl; lia].
  - eexists. split; [reflexivity|].
    split; simpl; [exact B | unfold site_bounded in *; simpl; lia].
Qed.

(** The end of [visit_FunctionDef]: the names are surfaced and the site
    is recorded. *)
Lemma site_recorded (args : list arg) (func : FuncVar) (self : Analyzer) :
  site_in_progress (func, self) ->
  balanced 0
    (append_func_var func
       (if ((0 <? num_var_annotated func)
            && (num_var_annotated func <? num_var func))%Z
        then fold_left
               (fun self a => append_unannotated_name (arg_name a) self)
               args self
        else self)).
Proof.
  intros [B Bd]. simpl in B, Bd.
  apply balanced_append_func_var; [exact Bd|]. cbn [Z.add].
  destruct (_ && _); [now apply balanced_unannotated_names | exact B].
Qed.

Lemma visit_FunctionDef_balanced
    (generic_visit : list stmt -> Analyzer -> result Analyzer)
    name lineno args returns body self :
  (forall s, balanced 0 s ->
             exists s', generic_visit body s = Ok s' /\ balanced 0 s') ->
  balanced 0 self ->
  exists self',
    visit_FunctionDef unparse generic_visit name lineno args returns body
                      self = Ok self'
    /\ balanced 0 self'.
Proof.
  intros G B. unfold visit_FunctionDef.
  assert (L : Forall (fun a => forall st, site_in_progress st ->
                        exists st', visit_arg unparse name lineno a st
                                    = Ok st' /\ site_in_progress st')
                     args).
  { apply Forall_forall. intros a _ st. apply visit_arg_in_progress. }
  assert (S0 : site_in_progress
                 (new_FuncVar (repo_id self) (rel_path self) name lineno,
                  self)).
  { split; simpl; [exact B | unfold site_bounded; simpl; lia]. }
  destruct (for_each_invariant _ _ _ L _ S0)
    as [[func self1] [-> [B1 Bd1]]].
  simpl in B1, Bd1. cbn [bind]. cbv zeta.
  destruct returns as [r|].
  - destruct (completely_handle_annotation_balanced
                r name lineno FUNCTION_RETURN "" self1 _ B1)
      as [self2 [-> B2]].
    cbn [bind]. apply G, site_recorded.
    split; simpl; [exact B2 | unfold site_bounded in *; simpl; lia].
  - destruct (contains_return body); cbn [bind]; apply G, site_recorded;
      (split; simpl; [exact B1 | unfold site_bounded in *; simpl; lia]).
Qed.

Lemma visit_AnnAssign_balanced target ann lineno self :
  balanced 0 self ->
  exists self',
    visit_AnnAssign unparse target ann lineno self = Ok self'
    /\ balanced 0 self'.
Proof.
  intros B. unfold visit_AnnAssign.
  apply (completely_handle_annotation_balanced _ _ _ _ _ _ (-1)).
  apply balanced_append_func_var; [|exact B].
  unfold site_bounded. simpl. lia.
Qed.

Lemma assigned_var_balanced element lineno self :
  balanced 0 self -> balanced 0 (assigned_var element lineno self).
Proof.
  intros B. unfold assigned_var.
  apply balanced_append_func_var; [|exact B].
  unfold site_bounded. simpl. lia.
Qed.

Lemma visit_Assign_balanced targets lineno :
  forall self, balanced 0 self ->
               balanced 0 (visit_Assign targets lineno self).
Proof.
  unfold visit_Assign.
  induction targets as [|target targets IH]; intros self B; simpl;
    [exact B|].
  apply IH.
  assert (T : forall elts s,
             balanced 0 s ->
             balanced 0
               (fold_left
                  (fun self element => assigned_var element lineno self)
                  elts s)).
  { induction elts as [|e elts IHe]; intros s Bs; simpl; [exact Bs|].
    now apply IHe, assigned_var_balanced. }
  destruct target; try now apply assigned_var_balanced.
  now apply T.
Qed.

(** Every statement is visited to the end, and the books stay balanced. *)
Lemma visit_balanced (node : stmt) :
  forall self, balanced 0 self ->
               exists self', visit unparse node self = Ok self'
                             /\ balanced 0 self'.
Proof.
  induction node as [name lineno args returns body IH|target ann lineno
                     |targets lineno|value|kind children IH]
    using stmt_nested_ind; intros self B; simpl.
  - apply visit_FunctionDef_balanced; [|exact B].
    intros s Bs. now apply for_each_invariant.
  - now apply visit_AnnAssign_balanced.
  - eexists. split; [reflexivity|]. now apply visit_Assign_balanced.
  - now exists self.
  - now apply for_each_invariant.
Qed.

Lemma new_Analyzer_balanced (repo : Z) (path : string) :
  balanced 0 (new_Analyzer repo path).
Proof. repeat split. constructor. Qed.

Lemma visit_Module_balanced (m : module) (repo : Z) (path : string) :
  exists self',
    visit_Module unparse m (new_Analyzer repo path) = Ok self'
    /\ balanced 0 self'.
Proof.
  apply for_each_invariant; [|apply new_Analyzer_balanced].
  apply Forall_forall. intros node _. apply visit_balanced.
Qed.

(** *** What [visit_FunctionDef] records for one function *)

Lemma visit_arg_returns name lineno a func self :
  exists self',
    visit_arg unparse name lineno a (func, self)
    = Ok (if is_annotated a
          then increase_num_var_annotated (increase_num_var func)
          else increase_num_var func, self')
    /\ unannotated_names self' = unannotated_names self.
Proof.
  unfold visit_arg, is_annotated. destruct (annotation a) as [ann|].
  - destruct (completely_handle_annotation_returns
                ann name lineno FUNCTION_ARG (arg_name a) self)
      as [base ->].
    eexists. split; reflexivity.
  - exists self. split; reflexivity.
Qed.

Lemma visit_args_counts name lineno args :
  forall func self,
  exists func' self',
    for_each (visit_arg unparse name lineno) args (func, self)
    = Ok (func', self')
    /\ num_var func' = num_var func + Z.of_nat (List.length args)
    /\ num_var_annotated func'
       = num_var_annotated func
         + Z.of_nat (List.length (filter is_annotated args))
    /\ unannotated_names self' = unannotated_names self.
Proof.
  induction args as [|a args IH]; intros func self.
  - exists func, self. simpl. repeat split; lia.
  - destruct (visit_arg_returns name lineno a func self) as [self1 [E1 U1]].
    cbn [for_each]. rewrite E1. cbn [bind].
    match goal with
    | |- context [for_each _ args (?f, ?s)] =>
        destruct (IH f s) as [func' [self' [E [N [A U]]]]]
    end.
    exists func', self'. split; [exact E|].
    cbn [filter List.length].
    destruct (is_annotated a); simpl in N, A; cbn [List.length];
      repeat split; try lia; congruence.
Qed.

Lemma unannotated_names_appended (args : list arg) :
  forall self,
    unannotated_names
      (fold_left (fun self a => append_unannotated_name (arg_name a) self)
                 args self)
    = (unannotated_names self ++ map arg_name args)%list.
Proof.
  induction args as [|a args IH]; intros self; simpl.
  - now rewrite app_nil_r.
  - rewrite IH. simpl. now rewrite <- app_assoc.
Qed.

(** The site a function definition records, and the names it surfaces,
    before the traversal goes on into the body: [num_var] is the number of
    arguments, plus one for an annotated return slot or, failing that, when
    [contains_return] answers [True]; when the site is partially annotated
    the name of every argument is appended to [unannotated_names]. *)
Lemma visit_FunctionDef_site
    (generic_visit : list stmt -> Analyzer -> result Analyzer)
    name lineno args returns body self :
  exists site self1,
    visit_FunctionDef unparse generic_visit name lineno args returns body
                      self
    = generic_visit body (append_func_var site self1)
    /\ num_var site
       = Z.of_nat (List.length args)
         + match returns with
           | Some _ => 1
           | None => if contains_return body then 1 else 0
           end
    /\ num_var_annotated site
       = Z.of_nat (List.length (filter is_annotated args))
         + match returns with Some _ => 1 | None => 0 end
    /\ unannotated_names self1
       = (unannotated_names self
          ++ if ((0 <? num_var_annotated site)
                 && (num_var_annotated site <? num_var site))%Z
             then map arg_name args else [])%list.
Proof.
  unfold visit_FunctionDef.
  destruct (visit_args_counts name lineno args
              (new_FuncVar (repo_id self) (rel_path self) name lineno) self)
    as [func [self1 [-> [N [A U]]]]].
  simpl in N, A. cbn [bind]. cbv zeta.
  assert (T : forall (f : FuncVar) (s : Analyzer),
             unannotated_names
               (if ((0 <? num_var_annotated f)
                    && (num_var_annotated f <? num_var f))%Z
                then fold_left
                       (fun self a =>
                          append_unannotated_name (arg_name a) self)
                       args s
                else s)
             = (unannotated_names s
                ++ if ((0 <? num_var_annotated f)
                       && (num_var_annotated f <? num_var f))%Z
                   then map arg_name args else [])%list).
  { intros f s. destruct (_ && _).
    - apply unannotated_names_appended.
    - now rewrite app_nil_r. }
  destruct returns as [r|].
  - destruct (completely_handle_annotation_returns
                r name lineno FUNCTION_RETURN "" self1) as [base ->].
    cbn [bind]. do 2 eexists. split; [reflexivity|].
    split; [simpl; lia|]. split; [simpl; lia|].
    rewrite T. simpl. now rewrite U.
  - destruct (contains_return body); cbn [bind]; do 2 eexists;
      (split; [reflexivity|]);
      (split; [simpl; lia|]); (split; [simpl; lia|]);
      rewrite T; now rewrite U.
Qed.

End WalkerBooks.

(** ** The walker: claims *)

(** C3: the walker visits every module to the end, and then the number of
    annotation records equals the sum of [num_var_annotated] over the
    recorded sites (the two totals [analyze_repository] compares). *)
Theorem records_match_annotated_bindings :
  forall unparse (m : module) repo path,
  exists self',
    visit_Module unparse m (new_Analyzer repo path) = Ok self'
    /\ Z.of_nat (List.length (annotations self'))
       = total_func_vars_annotated self'.
Proof.
  intros unparse m repo path.
  destruct (visit_Module_balanced unparse m repo path) as [self' [E [_ [S _]]]].
  exists self'. split; [exact E|].
  unfold total_annotated in S. lia.
Qed.

(** C9: every site the walker records for a module, from a function
    definition, an annotated assignment or a plain assignment, has
    [0 <= num_var_annotated <= num_var]. *)
Theorem sites_are_bounded :
  forall unparse (m : module) repo path,
  exists self',
    visit_Module unparse m (new_Analyzer repo path) = Ok self'
    /\ Forall (fun site => 0 <= num_var_annotated site <= num_var site)
              (funcs_and_vars self').
Proof.
  intros unparse m repo path.
  destruct (visit_Module_balanced unparse m repo path) as [self' [E [_ [_ F]]]].
  exists self'. split; [exact E | exact F].
Qed.

(** C10: every call of the annotation handler returns with the counter one
    higher and one record appended, and after the traversal of a module
    [total_annotations] is the length of the list of records. *)
Theorem total_annotations_counts_records :
  forall unparse,
    (forall annot name lineno fvt aname self,
      exists self' record,
        completely_handle_annotation unparse annot name lineno fvt aname self
        = Ok self'
        /\ total_annotations self' = total_annotations self + 1
        /\ annotations self' = (annotations self ++ [record])%list)
    /\ (forall (m : module) repo path,
         exists self',
           visit_Module unparse m (new_Analyzer repo path) = Ok self'
           /\ total_annotations self'
              = Z.of_nat (List.length (annotations self'))).
Proof.
  intros unparse. split.
  - intros annot name lineno fvt aname self.
    destruct (completely_handle_annotation_returns
                unparse annot name lineno fvt aname self) as [base ->].
    do 2 eexists. split; [reflexivity|]. split; reflexivity.
  - intros m repo path.
    destruct (visit_Module_balanced unparse m repo path)
      as [self' [E [T _]]].
    exists self'. split; [exact E | exact T].
Qed.

(** C1, on the code: the handler runs the counter first and resets the
    accumulator afterwards, so the record it appends carries the count 0
    whatever the annotation; for the annotation [int] one counting pass from
    an accumulator reset to 0 gives 1. *)
Theorem recorded_count_is_zero :
  forall unparse,
    (forall annot name lineno fvt aname self,
      exists self' record,
        completely_handle_annotation unparse annot name lineno fvt aname self
        = Ok self'
        /\ annotations self' = (annotations self ++ [record])%list
        /\ count record = 0)
    /\ (forall self, classify (Name "int") self = 1).
Proof.
  intros unparse. split.
  - intros annot name lineno fvt aname self.
    destruct (completely_handle_annotation_returns
                unparse annot name lineno fvt aname self) as [base ->].
    do 2 eexists. split; [reflexivity|]. split; reflexivity.
  - intros self. rewrite classify_leaf_total. reflexivity.
Qed.

(** The loop of [contains_return] looks at the statements of the body
    itself and at nothing nested in them. *)
Lemma contains_return_top_level (body : list stmt) :
  contains_return body = true
  <-> exists statement, In statement body
                        /\ returns_something statement = true.
Proof.
  induction body as [|s body IH]; simpl.
  - split; [discriminate | now intros [? [[] _]]].
  - destruct (returns_something s) eqn:R.
    + split; [|reflexivity]. intros _. exists s. auto.
    + rewrite IH. split.
      * intros [x [I X]]. exists x. auto.
      * intros [x [[<-|I] X]]; [congruence|]. now exists x.
Qed.

Lemma contains_return_existsb (body : list stmt) :
  contains_return body = existsb returns_something body.
Proof.
  induction body as [|s body IH]; simpl; [reflexivity|].
  now destruct (returns_something s).
Qed.

(** C4, on the code: when the return slot is not annotated, [num_var] is the
    number of arguments plus one exactly when one of the statements of the
    body itself is a return of a non-null value.  A return nested in a
    compound statement is not seen: in [def f(x):] / [if x:] / [return 1]
    the body returns a non-null value inside the [if], [contains_return]
    answers [False] and the site is recorded with [num_var = 1], the
    argument alone. *)
Theorem nested_return_not_counted :
  forall unparse,
    (forall generic_visit name lineno args body self,
      exists site self1,
        visit_FunctionDef unparse generic_visit name lineno args None body
                          self
        = generic_visit body (append_func_var site self1)
        /\ num_var site
           = Z.of_nat (List.length args)
             + if existsb returns_something body then 1 else 0)
    /\ (exists site,
          visit unparse def_nested_return default_Analyzer
          = Ok (append_func_var site default_Analyzer)
          /\ num_var site = 1)
    /\ contains_return
         [OtherStmt "If" [Return (Some (Constant (CInt 1)))]] = false
    /\ body_returns_value
         [OtherStmt "If" [Return (Some (Constant (CInt 1)))]] = true.
Proof.
  intros unparse. split.
  - intros generic_visit name lineno args body self.
    destruct (visit_FunctionDef_site unparse generic_visit name lineno args
                None body self) as [site [self1 [E [N _]]]].
    exists site, self1. split; [exact E|].
    now rewrite <- contains_return_existsb.
  - split; [|split; reflexivity].
    eexists. split; reflexivity.
Qed.

(** C5, on the code: when a function definition is partially annotated,
    the walker appends the name of every argument to [unannotated_names],
    the annotated ones included.  For [def f(a: int, b): pass] (one of two
    bindings annotated) the names surfaced are [a] and [b], where only [b]
    carries no annotation. *)
Theorem partial_site_surfaces_all_names :
  forall unparse,
    (forall generic_visit name lineno args returns body self,
      exists site self1,
        visit_FunctionDef unparse generic_visit name lineno args returns body
                          self
        = generic_visit body (append_func_var site self1)
        /\ unannotated_names self1
           = (unannotated_names self
              ++ if ((0 <? num_var_annotated site)
                     && (num_var_annotated site <? num_var site))%Z
                 then map arg_name args else [])%list)
    /\ (exists self' site,
          visit unparse def_partial default_Analyzer = Ok self'
          /\ funcs_and_vars self' = [site]
          /\ num_var_annotated site = 1 /\ num_var site = 2
          /\ unannotated_names self' = ["a"; "b"])
    /\ unannotated_arg_names
         [mk_arg "a" (Some (Name "int")); mk_arg "b" None] = ["b"].
Proof.
  intros unparse. split; [|split; [|reflexivity]].
  - intros generic_visit name lineno args returns body self.
    destruct (visit_FunctionDef_site unparse generic_visit name lineno args
                returns body self) as [site [self1 [E [_ [_ U]]]]].
    now exists site, self1.
  - destruct (get_base_type_total (Some (unparse (Name "int"))))
      as [base E].
    unfold def_partial, visit, visit_FunctionDef, for_each, visit_arg,
      completely_handle_annotation.
    cbn [annotation arg_name]. rewrite E. cbn.
    do 2 eexists. repeat split.
Qed.

(** * The rest of the analyzer module *)

(** ** Constants *)

(** X1: an annotation [check_constant] accepts (a constant, or a minus sign
    before a constant) is a well-formed shape that counts as exactly one
    leaf. *)
Theorem check_constant_one_leaf :
  forall annot self,
    check_constant annot = true ->
    well_formed annot = true /\ classify annot self = 1.
Proof.
  intros annot self H. rewrite classify_leaf_total.
  destruct annot as [| | | | | | | | |op operand| | | | | | | |];
    try discriminate; [now split|].
  destruct op; try discriminate.
  destruct operand; try discriminate. now split.
Qed.

Lemma check_constant_one_leaf_witness :
  check_constant (UnaryOp USub (Constant (CInt 1))) = true
  /\ classify (UnaryOp USub (Constant (CInt 1))) default_Analyzer = 1.
Proof.
  split; [reflexivity|].
  apply (check_constant_one_leaf (UnaryOp USub (Constant (CInt 1)))
                                 default_Analyzer).
  reflexivity.
Defined.

(** ** Plain assignments *)

Lemma assigned_vars_fold (lineno : Z) (elts : list expr) :
  forall self,
    fold_left (fun self element => assigned_var element lineno self) elts self
    = mk_Analyzer (repo_id self) (rel_path self) (total_annotations self)
                  (last_count self)
                  (funcs_and_vars self ++ map (plain_site self lineno) elts)
                  (annotations self) (unannotated_names self).
Proof.
  induction elts as [|e elts IH]; intros self; simpl.
  - rewrite app_nil_r. now destruct self.
  - rewrite IH. unfold assigned_var, plain_site. simpl.
    now rewrite <- app_assoc.
Qed.

Lemma visit_Assign_appends (targets : list expr) (lineno : Z) :
  forall self,
    visit_Assign targets lineno self
    = mk_Analyzer (repo_id self) (rel_path self) (total_annotations self)
                  (last_count self)
                  (funcs_and_vars self
                   ++ map (plain_site self lineno)
                          (flat_map assigned_elements targets))
                  (annotations self) (unannotated_names self).
Proof.
  unfold visit_Assign.
  induction targets as [|target targets IH]; intros self.
  - simpl. rewrite app_nil_r. now destruct self.
  - cbn [fold_left flat_map]. rewrite IH.
    assert (E : match target with
                | Tuple elts =>
                    fold_left
                      (fun self element => assigned_var element lineno self)
                      elts self
                | _ => assigned_var target lineno self
                end
                = fold_left
                    (fun self element => assigned_var element lineno self)
                    (assigned_elements target) self)
      by now destruct target.
    rewrite E, assigned_vars_fold. simpl.
    rewrite map_app, <- app_assoc. reflexivity.
Qed.

(** X2: a plain assignment records one site per target, one per element
    for a tuple target, each with one binding and none annotated, at the
    line of the statement and named by [get_var_name]; it emits no record
    and leaves the counter, the accumulator and the surfaced names alone. *)
Theorem visit_Assign_records_plain_sites :
  forall targets lineno self,
    visit_Assign targets lineno self
    = mk_Analyzer (repo_id self) (rel_path self) (total_annotations self)
                  (last_count self)
                  (funcs_and_vars self
                   ++ map (fun element =>
                             mk_FuncVar (repo_id self) (rel_path self)
                                        (get_var_name element) lineno 1 0)
                          (flat_map assigned_elements targets))
                  (annotations self) (unannotated_names self).
Proof.
  intros targets lineno self. apply visit_Assign_appends.
Qed.

(** ** The answers of the resolver *)

Lemma python_type_resolves_to_itself (t : string) :
  In t python_types -> t <> "..." -> get_base_type (Some t) = Ok t.
Proof.
  intros H N. unfold python_types in H. simpl in H.
  repeat (destruct H as [<-|H]; [try reflexivity; now elim N|]).
  contradiction.
Qed.

Lemma qualifier_resolved (head : string) : resolved (qualifier head).
Proof.
  unfold qualifier, resolved, str_in.
  destruct (existsb (String.eqb head) python_types) eqn:E; [|now right; left].
  right. right. apply existsb_exists in E. destruct E as [t [I E]].
  apply String.eqb_eq in E. subst t.
  destruct (String.eqb head "...") eqn:D.
  - split; [simpl; tauto | discriminate].
  - split; [exact I|]. now apply String.eqb_neq.
Qed.

(** X3: whatever its input, the resolver answers the empty string, the
    sentinel [user_defined] or one of the listed types, never the ellipsis
    marker [...] itself; and the answer is a fixed point: resolving it again
    gives it back. *)
Theorem get_base_type_answers :
  forall input,
  exists out,
    get_base_type input = Ok out
    /\ (out = "" \/ out = "user_defined"
        \/ (In out python_types /\ out <> "..."))
    /\ get_base_type (Some out) = Ok out.
Proof.
  assert (F : forall out, resolved out -> get_base_type (Some out) = Ok out).
  { intros out [->|[->|[I N]]]; try reflexivity.
    now apply python_type_resolves_to_itself. }
  intros [[|c rest]|].
  - exists "". split; [reflexivity|]. split; [now left | reflexivity].
  - exists (qualifier (head_token (String c rest))).
    split; [apply get_base_type_qualifier|].
    split; [apply qualifier_resolved | apply F, qualifier_resolved].
  - exists "". split; [reflexivity|]. split; [now left | reflexivity].
Qed.

(** ** Invariants of a traversal *)

Lemma completely_handle_annotation_base
    unparse annot name lineno fvt aname self :
  exists base,
    get_base_type (Some (unparse annot)) = Ok base
    /\ completely_handle_annotation unparse annot name lineno fvt aname self
       = Ok (append_annotation
               (mk_Annotation (repo_id self) (rel_path self) name lineno
                              aname fvt base (unparse annot) 0)
               (set_last_count 0
                  (set_total_annotations (total_annotations self + 1)
                                         self))).
Proof.
  unfold completely_handle_annotation.
  rewrite handle_annotation_basic_bump. unfold bump.
  rewrite set_last_count_set.
  destruct (get_base_type_total (Some (unparse annot))) as [base E].
  exists base. split; [exact E|]. rewrite E. reflexivity.
Qed.

(** A property of the analyzer that survives recording a site, surfacing a
    name and each of the three ways the annotation handler is called
    survives the visit of any statement, which always returns. *)
Section WalkerInvariant.

Variable unparse : expr -> string.
Variable I : Analyzer -> Prop.

Hypothesis I_site : forall f self, I self -> I (append_func_var f self).
Hypothesis I_name :
  forall n self, I self -> I (append_unannotated_name n self).
Hypothesis I_handled :
  forall annot name lineno fvt aname self self',
    called_with fvt name aname ->
    I self ->
    completely_handle_annotation unparse annot name lineno fvt aname self
    = Ok self' ->
    I self'.

Lemma handled_invariant annot name lineno fvt aname self :
  called_with fvt name aname ->
  I self ->
  exists self',
    completely_handle_annotation unparse annot name lineno fvt aname self
    = Ok self'
    /\ I self'.
Proof.
  intros C H.
  destruct (completely_handle_annotation_returns
              unparse annot name lineno fvt aname self) as [base E].
  eexists. split; [exact E|]. eapply I_handled; eassumption.
Qed.

Lemma visit_FunctionDef_invariant
    (generic_visit : list stmt -> Analyzer -> result Analyzer)
    name lineno args returns body self :
  (forall s, I s -> exists s', generic_visit body s = Ok s' /\ I s') ->
  I self ->
  exists self',
    visit_FunctionDef unparse generic_visit name lineno args returns body
                      self = Ok self'
    /\ I self'.
Proof.
  intros G H. unfold visit_FunctionDef.
  assert (L : Forall (fun a => forall st : FuncVar * Analyzer,
                        I (snd st) ->
                        exists st', visit_arg unparse name lineno a st
                                    = Ok st' /\ I (snd st'))
                     args).
  { apply Forall_forall. intros a _ [func s] Hs. simpl in Hs.
    unfold visit_arg. destruct (annotation a) as [ann|].
    - destruct (handled_invariant ann name lineno FUNCTION_ARG (arg_name a)
                                  s Logic.I Hs) as [s' [-> Hs']].
      eexists. split; [reflexivity | exact Hs'].
    - eexists. split; [reflexivity | exact Hs]. }
  destruct (for_each_invariant _ (fun st => I (snd st)) _ L
              (new_FuncVar (repo_id self) (rel_path self) name lineno, self)
              H) as [[func self1] [-> H1]].
  simpl in H1. cbn [bind]. cbv zeta.
  assert (N : forall f s, I s ->
              I (append_func_var f
                   (if ((0 <? num_var_annotated f)
                        && (num_var_annotated f <? num_var f))%Z
                    then fold_left
                           (fun self a =>
                              append_unannotated_name (arg_name a) self)
                           args s
                    else s))).
  { intros f s Hs. apply I_site. destruct (_ && _); [|exact Hs].
    clear - I_name Hs. revert s Hs.
    induction args as [|a l IH]; intros s Hs; simpl; auto. }
  destruct returns as [r|].
  - destruct (handled_invariant r name lineno FUNCTION_RETURN "" self1
                                eq_refl H1) as [self2 [-> H2]].
    cbn [bind]. now apply G, N.
  - destruct (contains_return body); cbn [bind]; now apply G, N.
Qed.

Lemma visit_invariant (node : stmt) :
  forall self, I self ->
               exists self', visit unparse node self = Ok self' /\ I self'.
Proof.
  induction node as [name lineno args returns body IH|target ann lineno
                     |targets lineno|value|kind children IH]
    using stmt_nested_ind; intros self H; simpl.
  - apply visit_FunctionDef_invariant; [|exact H].
    intros s Hs. now apply for_each_invariant.
  - unfold visit_AnnAssign.
    apply handled_invariant; [reflexivity | now apply I_site].
  - eexists. split; [reflexivity|].
    rewrite visit_Assign_appends.
    clear - I_site H.
    assert (A : forall l s, I s ->
                I (mk_Analyzer (repo_id s) (rel_path s) (total_annotations s)
                     (last_count s) (funcs_and_vars s ++ l) (annotations s)
                     (unannotated_names s))).
    { induction l as [|f l IHl]; intros s Hs.
      - rewrite app_nil_r. now destruct s.
      - specialize (IHl _ (I_site f s Hs)). simpl in IHl.
        now rewrite <- app_assoc in IHl. }
    now apply A.
  - now exists self.
  - now apply for_each_invariant.
Qed.

Lemma visit_Module_invariant (m : module) (self : Analyzer) :
  I self ->
  exists self', visit_Module unparse m self = Ok self' /\ I self'.
Proof.
  apply for_each_invariant.
  apply Forall_forall. intros node _. apply visit_invariant.
Qed.

End WalkerInvariant.

(** X4: in every record of a module's traversal, the repository and the
    path are the analyzer's, the base type is the resolver's answer for the
    recorded text, the [annot_name] of a return record is empty and that of
    a variable record is the name of the variable. *)
Theorem records_are_well_emitted :
  forall unparse (m : module) repo path,
  exists self',
    visit_Module unparse m (new_Analyzer repo path) = Ok self'
    /\ Forall (fun a =>
                 a_repo_id a = repo
                 /\ a_relative_path a = path
                 /\ get_base_type (Some (entire_annotation a))
                    = Ok (base_type a)
                 /\ match func_var_type a with
                    | FUNCTION_ARG => True
                    | FUNCTION_RETURN => annot_name a = ""
                    | VARIABLE => annot_name a = func_var_name a
                    end)
              (annotations self').
Proof.
  intros unparse m repo path.
  destruct (visit_Module_invariant unparse
              (records_well_emitted repo path)) with
    (m := m) (self := new_Analyzer repo path) as [self' [E [_ [_ F]]]].
  - intros f self H. exact H.
  - intros n self H. exact H.
  - intros annot name lineno fvt aname self self' C [R [P F]] E.
    destruct (completely_handle_annotation_base
                unparse annot name lineno fvt aname self) as [base [B E']].
    rewrite E' in E. injection E as <-.
    unfold records_well_emitted. simpl.
    split; [exact R|]. split; [exact P|].
    apply Forall_app. split; [exact F|]. constructor; [|constructor].
    unfold well_emitted. simpl.
    split; [exact R|]. split; [exact P|]. split; [exact B|].
    destruct fvt; simpl in *; auto.
  - repeat split. constructor.
  - exists self'. split; [exact E | exact F].
Qed.

(** ** Preparing the rows *)

Lemma slice_to_length (n : nat) (s : string) :
  String.length (slice_to n s) = Nat.min n (String.length s).
Proof.
  revert s. induction n as [|n IH]; intros [|c s]; simpl; auto.
Qed.

Lemma slice_to_prefix (n : nat) (s : string) :
  exists rest, s = (slice_to n s ++ rest)%string.
Proof.
  revert s. induction n as [|n IH]; intros s.
  - exists s. now destruct s.
  - destruct s as [|c s]; [now exists ""|].
    destruct (IH s) as [rest E]. exists rest. simpl. now rewrite <- E.
Qed.

Lemma slice_to_truncated (n : nat) (s : string) :
  truncated_to n s (slice_to n s).
Proof. split; [apply slice_to_length | apply slice_to_prefix]. Qed.

Lemma slice_to_short (n : nat) (s : string) :
  (String.length s <= n)%nat -> slice_to n s = s.
Proof.
  revert s. induction n as [|n IH]; intros [|c s] H; simpl in *;
    try reflexivity; [lia|].
  rewrite IH; [reflexivity | lia].
Qed.

Lemma slice_to_idempotent (n : nat) (s : string) :
  slice_to n (slice_to n s) = slice_to n s.
Proof. apply slice_to_short. rewrite slice_to_length. lia. Qed.

(** X5: [convert_fvt_to_str] turns the kind of every record of the analyzer
    into its word and raises nothing; run a second time on the same
    objects it raises [ValueError] as soon as there is one, a [str] being
    none of the three members of the enum. *)
Theorem convert_fvt_to_str_only_once :
  forall records : list Annotation,
  exists objects,
    convert_fvt_to_str (map as_object records) = Ok objects
    /\ objects
       = map (fun a =>
                set_func_var_type (AsStr (fvt_str (func_var_type a)))
                                  (as_object a))
             records
    /\ convert_fvt_to_str objects
       = match records with
         | [] => Ok []
         | _ :: _ => Raise "ValueError"
         end.
Proof.
  intros records. eexists. split; [|split; [reflexivity|]].
  - induction records as [|a records IH]; [reflexivity|].
    cbn [map convert_fvt_to_str]. rewrite IH.
    unfold convert_fvt. simpl. now destruct (func_var_type a).
  - now destruct records.
Qed.

(** X6: [verify_name_length] cuts the texts of a site after 269 and 134
    characters and leaves its numbers alone; on an annotation whose kind is
    still a member of the enum it raises [TypeError]; on one whose kind is
    a [str] it cuts the six texts after 269, 134, 134, 44, 44 and 539
    characters and leaves the numbers alone.  Verifying a verified object
    changes nothing. *)
Theorem verify_name_length_cuts :
  (forall f : FuncVar,
      truncated_to 269 (fv_relative_path f)
                   (fv_relative_path (verify_name_length_FuncVar f))
      /\ truncated_to 134 (fv_name f)
                      (fv_name (verify_name_length_FuncVar f))
      /\ (fv_repo_id (verify_name_length_FuncVar f),
          fv_lineno (verify_name_length_FuncVar f),
          num_var (verify_name_length_FuncVar f),
          num_var_annotated (verify_name_length_FuncVar f))
         = (fv_repo_id f, fv_lineno f, num_var f, num_var_annotated f)
      /\ verify_name_length_FuncVar (verify_name_length_FuncVar f)
         = verify_name_length_FuncVar f)
  /\ (forall a : Annotation,
         verify_name_length_Annotation (as_object a) = Raise "TypeError")
  /\ (forall (obj : AnnotationObj) (t : string),
       exists obj' t',
         verify_name_length_Annotation (set_func_var_type (AsStr t) obj)
         = Ok obj'
         /\ truncated_to 269 (o_relative_path obj) (o_relative_path obj')
         /\ truncated_to 134 (o_func_var_name obj) (o_func_var_name obj')
         /\ truncated_to 134 (o_annot_name obj) (o_annot_name obj')
         /\ o_func_var_type obj' = AsStr t' /\ truncated_to 44 t t'
         /\ truncated_to 44 (o_base_type obj) (o_base_type obj')
         /\ truncated_to 539 (o_entire_annotation obj)
                         (o_entire_annotation obj')
         /\ (o_repo_id obj', o_lineno obj', o_count obj')
            = (o_repo_id obj, o_lineno obj, o_count obj)
         /\ verify_name_length_Annotation obj' = Ok obj').
Proof.
  split; [|split].
  - intros f. unfold verify_name_length_FuncVar. simpl.
    rewrite !slice_to_idempotent.
    repeat split; try apply slice_to_length; apply slice_to_prefix.
  - reflexivity.
  - intros obj t. unfold verify_name_length_Annotation. simpl.
    do 2 eexists. split; [reflexivity|]. simpl.
    rewrite !slice_to_idempotent.
    repeat split; try apply slice_to_length; apply slice_to_prefix.
Qed.

(** ** Storing a module *)








(** ** Counting the names of unannotated arguments *)

Lemma dict_in_getitem (k : string) (d : dict) :
  if dict_in k d then exists v, dict_getitem k d = Ok v
  else dict_getitem k d = Raise "KeyError".
Proof.
  induction d as [|[k' v'] d IH]; simpl; [reflexivity|].
  destruct (String.eqb k' k); simpl; [now exists v' | exact IH].
Qed.

Lemma count_of_setitem (k k' : string) (v : Z) (d : dict) :
  count_of k (dict_setitem k' v d)
  = if String.eqb k' k then v else count_of k d.
Proof.
  unfold count_of. induction d as [|[k0 v0] d IH]; simpl.
  - now destruct (String.eqb k' k).
  - destruct (String.eqb k0 k') eqn:E0; simpl.
    + apply String.eqb_eq in E0. subst k0.
      now destruct (String.eqb k' k).
    + destruct (String.eqb k0 k) eqn:E1; [|exact IH].
      apply String.eqb_eq in E1. subst k0.
      rewrite String.eqb_sym in E0. now rewrite E0.
Qed.

Lemma dict_total_from (d : dict) (a : Z) :
  fold_left (fun total item => total + snd item) d a
  = a + fold_left (fun total item => total + snd item) d 0.
Proof.
  revert a. induction d as [|item d IH]; intros a; simpl; [lia|].
  rewrite IH, (IH (snd item)). lia.
Qed.

Lemma dict_total_setitem (k : string) (v : Z) (d : dict) :
  dict_total (dict_setitem k v d) = dict_total d - count_of k d + v.
Proof.
  unfold dict_total, count_of. induction d as [|[k0 v0] d IH]; simpl.
  - lia.
  - destruct (String.eqb k0 k); simpl.
    + rewrite dict_total_from, (dict_total_from d v0). lia.
    + rewrite dict_total_from, (dict_total_from d v0), IH. lia.
Qed.

Lemma count_unannotated_name_returns (name : string) (d : dict) :
  exists d',
    count_unannotated_name name d = Ok d'
    /\ (forall k, count_of k d'
                  = count_of k d + if String.eqb name k then 1 else 0)
    /\ dict_total d' = dict_total d + 1.
Proof.
  unfold count_unannotated_name.
  pose proof (dict_in_getitem name d) as G.
  destruct (dict_in name d); simpl.
  - destruct G as [v G]. rewrite G. simpl. eexists. split; [reflexivity|].
    assert (C : count_of name d = v) by (unfold count_of; now rewrite G).
    split.
    + intros k. rewrite count_of_setitem.
      destruct (String.eqb name k) eqn:E; [|lia].
      apply String.eqb_eq in E. subst k. lia.
    + rewrite dict_total_setitem. lia.
  - eexists. split; [reflexivity|].
    assert (C : count_of name d = 0) by (unfold count_of; now rewrite G).
    split.
    + intros k. rewrite count_of_setitem.
      destruct (String.eqb name k) eqn:E; [|lia].
      apply String.eqb_eq in E. subst k. lia.
    + rewrite dict_total_setitem. lia.
Qed.

(** X8: the loop that counts the surfaced names never meets a missing key:
    it returns a table in which every name stands for its former count plus
    the number of times it occurs among the names, and whose total has grown
    by the number of names. *)
Theorem unannotated_names_are_counted :
  forall (names : list string) (d : dict),
  exists d',
    count_unannotated_names names d = Ok d'
    /\ (forall k, count_of k d'
                  = count_of k d + Z.of_nat (count_occ string_dec names k))
    /\ dict_total d' = dict_total d + Z.of_nat (List.length names).
Proof.
  unfold count_unannotated_names.
  induction names as [|name names IH]; intros d.
  - exists d. simpl. repeat split; intros; lia.
  - destruct (count_unannotated_name_returns name d) as [d1 [E1 [C1 T1]]].
    destruct (IH d1) as [d' [E [C T]]].
    exists d'. cbn [for_each]. rewrite E1. cbn [bind].
    split; [exact E|]. split.
    + intros k. rewrite C, C1. cbn [count_occ].
      destruct (string_dec name k) as [->|N].
      * rewrite String.eqb_refl. lia.
      * apply String.eqb_neq in N. rewrite N. lia.
    + rewrite T, T1. cbn [List.length]. lia.
Qed.

(** ** The site of a function definition *)

(** X9: the site recorded for a function definition counts every
    argument, plus the return slot when it is annotated or, failing that,
    when [contains_return] finds a return of a non-null value among the
    statements of the body; its annotated bindings are the annotated
    arguments plus the annotated return slot. *)
Theorem function_site_counts :
  forall unparse generic_visit name lineno args returns body self,
  exists site self1,
    visit_FunctionDef unparse generic_visit name lineno args returns body
                      self
    = generic_visit body (append_func_var site self1)
    /\ num_var site
       = Z.of_nat (List.length args)
         + match returns with
           | Some _ => 1
           | None => if contains_return body then 1 else 0
           end
    /\ num_var_annotated site
       = Z.of_nat (List.length (filter is_annotated args))
         + match returns with Some _ => 1 | None => 0 end.
Proof.
  intros unparse generic_visit name lineno args returns body self.
  destruct (visit_FunctionDef_site unparse generic_visit name lineno args
              returns body self) as [site [self1 [E [N [A _]]]]].
  now exists site, self1.
Qed.

(** * The module [scripts/analyzer/slim_analyzer.py] *)

(** ** Finding a function definition *)

Lemma find_in_app {A : Type} (p : A -> bool) (l1 l2 : list A) :
  find p (l1 ++ l2)
  = match find p l1 with
    | Some x => Some x
    | None => find p l2
    end.
Proof.
  induction l1 as [|x l1 IH]; simpl; [reflexivity|].
  now destruct (p x).
Qed.

Lemma finder_visits (function_name : string) (children : list stmt) :
  Forall (fun node => forall found,
            SlimAnalyzer.visit function_name node found
            = match found with
              | Some _ => found
              | None => find (is_def_named function_name) (preorder node)
              end) children ->
  forall found,
    fold_left (fun found child => SlimAnalyzer.visit function_name child found)
              children found
    = match found with
      | Some _ => found
      | None => find (is_def_named function_name)
                     (flat_map preorder children)
      end.
Proof.
  induction 1 as [|node children H _ IH]; intros found; simpl.
  - now destruct found.
  - rewrite IH, H. destruct found as [x|]; [reflexivity|].
    rewrite find_in_app. now destruct (find _ (preorder node)).
Qed.

Lemma finder_visit (function_name : string) (node : stmt) :
  forall found,
    SlimAnalyzer.visit function_name node found
    = match found with
      | Some _ => found
      | None => find (is_def_named function_name) (preorder node)
      end.
Proof.
  induction node as [name lineno args returns body IH|target ann lineno
                     |targets lineno|value|kind children IH]
    using stmt_nested_ind; intros found;
    try (now destruct found).
  - cbn [SlimAnalyzer.visit preorder find is_def_named].
    destruct found as [x|]; [reflexivity|].
    destruct (String.eqb name function_name); [reflexivity|].
    now rewrite finder_visits.
  - cbn [SlimAnalyzer.visit preorder find is_def_named].
    now rewrite finder_visits.
Qed.

(** X10: when the traversal of a module by the finder returns, its
    [fount_function] is the first function definition of the wanted name in
    depth-first order, definitions nested in other definitions or in
    compound statements included, and [None] exactly when the module has
    none. *)
Theorem function_finder_finds_first :
  forall (tree : module) (function_name : string),
    SlimAnalyzer.visit_tree function_name tree
    = find (is_def_named function_name) (flat_map preorder tree).
Proof.
  intros tree function_name. unfold SlimAnalyzer.visit_tree.
  rewrite finder_visits; [reflexivity|].
  apply Forall_forall. intros node _. apply finder_visit.
Qed.

(** ** Splitting and joining a path *)

Lemma string_app_assoc (a b c : string) :
  ((a ++ b) ++ c = a ++ (b ++ c))%string.
Proof. induction a as [|x a IH]; simpl; [reflexivity | now rewrite IH]. Qed.

Lemma string_app_empty (a : string) : (a ++ "")%string = a.
Proof. induction a as [|x a IH]; simpl; [reflexivity | now rewrite IH]. Qed.

Lemma split_has_pieces (sep : ascii) (s : string) :
  exists piece pieces, split sep s = piece :: pieces.
Proof.
  induction s as [|c s [p [ps E]]]; simpl.
  - now exists "", [].
  - destruct (Ascii.eqb c sep); [now do 2 eexists|].
    rewrite E. now do 2 eexists.
Qed.

(** Joining the pieces of a split with the separator gives the text
    back. *)
Lemma join_split_round_trip :
  forall (sep : ascii) (s : string),
    SlimAnalyzer.join sep (split sep s) = s.
Proof.
  intros sep s. induction s as [|c s IH]; [reflexivity|].
  cbn [split]. destruct (Ascii.eqb_spec c sep) as [->|N].
  - destruct (split_has_pieces sep s) as [p [ps E]].
    rewrite E in *. cbn [SlimAnalyzer.join]. simpl.
    now rewrite <- IH.
  - destruct (split_has_pieces sep s) as [p [ps E]].
    rewrite E in *. cbn [SlimAnalyzer.join] in *.
    destruct ps; simpl; now rewrite <- IH.
Qed.

Lemma split_pieces_free (sep : ascii) (s : string) :
  Forall (fun piece => ~ In sep (list_ascii_of_string piece)) (split sep s).
Proof.
  induction s as [|c s IH]; simpl.
  - constructor; [intros [] | constructor].
  - destruct (Ascii.eqb_spec c sep) as [->|N].
    + constructor; [intros [] | exact IH].
    + destruct (split sep s) as [|p ps]; simpl.
      * constructor; [|constructor]. simpl. intros [E|[]]. congruence.
      * inversion IH as [|? ? Hp Hps]; subst.
        constructor; [|exact Hps]. simpl. intros [E|I]; [congruence | auto].
Qed.

Lemma split_free_piece (sep : ascii) (piece : string) :
  ~ In sep (list_ascii_of_string piece) -> split sep piece = [piece].
Proof.
  induction piece as [|c piece IH]; simpl; intros F; [reflexivity|].
  destruct (Ascii.eqb_spec c sep) as [->|N]; [elim F; now left|].
  rewrite IH; [reflexivity | tauto].
Qed.

Lemma split_free_piece_then (sep : ascii) (piece s : string) :
  ~ In sep (list_ascii_of_string piece) ->
  split sep (piece ++ String sep s) = piece :: split sep s.
Proof.
  induction piece as [|c piece IH]; simpl; intros F.
  - now rewrite Ascii.eqb_refl.
  - destruct (Ascii.eqb_spec c sep) as [->|N]; [elim F; now left|].
    rewrite IH; [reflexivity | tauto].
Qed.

Lemma split_join (sep : ascii) (piece : string) (pieces : list string) :
  Forall (fun piece => ~ In sep (list_ascii_of_string piece))
         (piece :: pieces) ->
  split sep (SlimAnalyzer.join sep (piece :: pieces)) = piece :: pieces.
Proof.
  revert piece. induction pieces as [|q pieces IH]; intros piece F;
    inversion F as [|? ? Hp Hps]; subst.
  - now apply split_free_piece.
  - cbn [SlimAnalyzer.join]. cbn [SlimAnalyzer.join] in IH.
    rewrite split_free_piece_then by exact Hp.
    now rewrite IH.
Qed.

Lemma join_firstn_prefix (sep : ascii) (n : nat) (pieces : list string) :
  exists rest,
    SlimAnalyzer.join sep pieces
    = (SlimAnalyzer.join sep (firstn n pieces) ++ rest)%string.
Proof.
  revert n. induction pieces as [|p pieces IH]; intros n.
  - exists "". now destruct n.
  - destruct n as [|n]; [now eexists|].
    cbn [firstn]. destruct pieces as [|q pieces].
    + exists "". rewrite firstn_nil. simpl. now rewrite string_app_empty.
    + destruct (IH n) as [rest E]. cbn [SlimAnalyzer.join].
      destruct (firstn n (q :: pieces)) as [|q' l] eqn:F.
      * eexists. reflexivity.
      * cbn [SlimAnalyzer.join] in E. rewrite E.
        exists rest. rewrite string_app_assoc. simpl. reflexivity.
Qed.

(** X11: the repository path is a prefix of the file path; its components
    are the first twelve components of the file path (all of them when there
    are fewer); and taking the repository path of a repository path changes
    nothing. *)
Theorem get_repo_from_file_path_keeps_twelve :
  forall (sep : ascii) (file_path : string),
    split sep (SlimAnalyzer.get_repo_from_file_path sep file_path)
    = firstn 12 (split sep file_path)
    /\ (exists rest,
          file_path
          = (SlimAnalyzer.get_repo_from_file_path sep file_path
             ++ rest)%string)
    /\ SlimAnalyzer.get_repo_from_file_path sep
         (SlimAnalyzer.get_repo_from_file_path sep file_path)
       = SlimAnalyzer.get_repo_from_file_path sep file_path.
Proof.
  intros sep file_path.
  assert (S : split sep (SlimAnalyzer.get_repo_from_file_path sep file_path)
              = firstn 12 (split sep file_path)).
  { unfold SlimAnalyzer.get_repo_from_file_path.
    pose proof (split_pieces_free sep file_path) as F.
    destruct (split_has_pieces sep file_path) as [p [ps E]].
    rewrite E in *. change (firstn 12 (p :: ps)) with (p :: firstn 11 ps).
    apply split_join. inversion F as [|? ? Hp Hps]; subst.
    constructor; [exact Hp|].
    apply Forall_forall. intros x I.
    rewrite Forall_forall in Hps. apply Hps.
    rewrite <- (firstn_skipn 11 ps). apply in_or_app. now left. }
  split; [exact S|]. split.
  - unfold SlimAnalyzer.get_repo_from_file_path.
    destruct (join_firstn_prefix sep 12 (split sep file_path)) as [rest E].
    exists rest. rewrite <- E. now rewrite join_split_round_trip.
  - unfold SlimAnalyzer.get_repo_from_file_path at 1. cbv zeta.
    rewrite S, firstn_firstn. reflexivity.
Qed.

(** ** The repositories to check *)

Lemma last_item_snoc {A : Type} (l : list A) (x : A) :
  SlimAnalyzer.last_item (l ++ [x]) = Some x.
Proof.
  induction l as [|y l IH]; [reflexivity|].
  simpl. destruct (l ++ [x])%list eqn:E; [now destruct l | exact IH].
Qed.

Lemma last_item_in {A : Type} (l : list A) (x : A) :
  SlimAnalyzer.last_item l = Some x -> In x l.
Proof.
  induction l as [|y l IH]; simpl; [discriminate|].
  destruct l; [intros [= ->]; now left | right; now apply IH].
Qed.

Lemma last_item_map {A B : Type} (f : A -> B) (l : list A) :
  SlimAnalyzer.last_item (map f l)
  = option_map f (SlimAnalyzer.last_item l).
Proof.
  induction l as [|y l IH]; [reflexivity|].
  simpl. destruct l; [reflexivity | exact IH].
Qed.

Lemma no_equal_neighbours_snoc (l : list Z) (x : Z) :
  no_equal_neighbours l ->
  match SlimAnalyzer.last_item l with
  | Some y => y <> x
  | None => True
  end ->
  no_equal_neighbours (l ++ [x]).
Proof.
  induction l as [|y l IH]; intros N L; [exact Logic.I|].
  destruct l as [|z l].
  - simpl in *. auto.
  - destruct N as [D N].
    change ((y :: z :: l) ++ [x])%list with (y :: (z :: l) ++ [x])%list.
    cbn [no_equal_neighbours app]. split; [exact D|].
    apply IH; [exact N | exact L].
Qed.

Lemma repos_to_check_step (sep : ascii) (all rows : list SlimAnalyzer.full_row) :
  forall repos : list (Z * string),
    incl rows all ->
    no_equal_neighbours (map fst repos) ->
    Forall (fun repo =>
              exists row, In row all /\ row_id row = fst repo
                          /\ snd repo
                             = SlimAnalyzer.get_repo_from_file_path
                                 sep (row_path row)) repos ->
    let repos' :=
      fold_left
        (fun (repos_to_check : list (Z * string))
             (row : SlimAnalyzer.full_row) =>
           let '(repo_id, file_path, _, _, _) := row in
           let repo_path :=
             SlimAnalyzer.get_repo_from_file_path sep file_path in
           match SlimAnalyzer.last_item repos_to_check with
           | Some last =>
               if (fst last =? repo_id)%Z then repos_to_check
               else (repos_to_check ++ [(repo_id, repo_path)])%list
           | None => (repos_to_check ++ [(repo_id, repo_path)])%list
           end)
        rows repos in
    no_equal_neighbours (map fst repos')
    /\ (forall id, In id (map fst repos')
                   <-> In id (map fst repos) \/ In id (map row_id rows))
    /\ Forall (fun repo =>
                 exists row, In row all /\ row_id row = fst repo
                             /\ snd repo
                                = SlimAnalyzer.get_repo_from_file_path
                                    sep (row_path row)) repos'
    /\ (List.length repos' <= List.length repos + List.length rows)%nat.
Proof.
  induction rows as [|row rows IH]; intros repos Incl N F; cbn [fold_left].
  - cbv zeta. split; [exact N|]. split; [simpl; tauto|].
    split; [exact F | simpl; lia].
  - assert (Incl' : incl rows all)
      by (intros x Hx; apply Incl; now right).
    assert (Irow : In row all) by (apply Incl; now left).
    destruct row as [[[[repo_id file_path] name] nv] nva].
    cbv zeta.
    assert (New : forall last_ok :
                   match SlimAnalyzer.last_item (map fst repos) with
                   | Some y => y <> repo_id
                   | None => True
                   end,
               let repos1 :=
                 (repos
                  ++ [(repo_id,
                       SlimAnalyzer.get_repo_from_file_path sep file_path)])%list
               in
               no_equal_neighbours (map fst repos1)
               /\ Forall (fun repo =>
                            exists row, In row all /\ row_id row = fst repo
                              /\ snd repo
                                 = SlimAnalyzer.get_repo_from_file_path
                                     sep (row_path row)) repos1).
    { intros last_ok. cbv zeta. split.
      - rewrite map_app. now apply no_equal_neighbours_snoc.
      - apply Forall_app. split; [exact F|]. constructor; [|constructor].
        eexists. split; [exact Irow|]. split; reflexivity. }
    destruct (SlimAnalyzer.last_item repos) as [last|] eqn:L.
    + destruct (Z.eqb_spec (fst last) repo_id) as [E|D].
      * destruct (IH repos Incl' N F) as [N' [I' [F' Len]]].
        split; [exact N'|].
        split; [|split; [exact F'|]];
          [|eapply Nat.le_trans; [exact Len | cbn [List.length]; lia]].
        intros id. rewrite I'. cbn [map row_id In].
        split; [tauto|]. intros [H|[H|H]]; auto.
        left. subst id. rewrite <- E. apply in_map.
        now apply last_item_in.
      * destruct New as [N1 F1].
        { rewrite last_item_map, L. exact D. }
        destruct (IH _ Incl' N1 F1) as [N' [I' [F' Len]]].
        split; [exact N'|]. split; [|split; [exact F'|]].
        -- intros id. rewrite I', map_app, in_app_iff. simpl. tauto.
        -- rewrite length_app in Len.
           eapply Nat.le_trans; [exact Len | cbn [List.length]; lia].
    + destruct New as [N1 F1].
      { rewrite last_item_map, L. exact Logic.I. }
      destruct (IH _ Incl' N1 F1) as [N' [I' [F' Len]]].
      split; [exact N'|]. split; [|split; [exact F'|]].
      * intros id. rewrite I', map_app, in_app_iff. simpl. tauto.
      * rewrite length_app in Len.
        eapply Nat.le_trans; [exact Len | cbn [List.length]; lia].
Qed.

(** X12: the list of repositories to check has no two neighbours with the
    same identifier; its identifiers are exactly those of the rows; every
    entry pairs the identifier of a row with the repository path of that
    row's file; and it is no longer than the list of rows.  The argument
    [last_repo_checked] plays no part. *)
Theorem get_repos_to_check_collapses_runs :
  forall (sep : ascii) (full_list : list SlimAnalyzer.full_row)
         (last_repo_checked : Z),
    no_equal_neighbours
      (map fst (SlimAnalyzer.get_repos_to_check sep full_list
                                                last_repo_checked))
    /\ (forall id,
          In id (map fst (SlimAnalyzer.get_repos_to_check
                            sep full_list last_repo_checked))
          <-> In id (map row_id full_list))
    /\ Forall (fun repo =>
                 exists row,
                   In row full_list /\ row_id row = fst repo
                   /\ snd repo
                      = SlimAnalyzer.get_repo_from_file_path
                          sep (row_path row))
              (SlimAnalyzer.get_repos_to_check sep full_list
                                               last_repo_checked)
    /\ (List.length (SlimAnalyzer.get_repos_to_check sep full_list
                                                     last_repo_checked)
        <= List.length full_list)%nat.
Proof.
  intros sep full_list last_repo_checked.
  destruct (repos_to_check_step sep full_list full_list [])
    as [N [I [F L]]].
  - apply incl_refl.
  - exact Logic.I.
  - constructor.
  - split; [exact N|]. split; [|split; [exact F | exact L]].
    intros id. rewrite (I id). simpl. tauto.
Qed.

(** * The module [scripts/data_retrieval/merge_repository_data.py] *)

(** ** Comparing repositories *)

Lemma eq_repos_refl (a : Merge.repo) : Merge.eq_repos a a = true.
Proof. unfold Merge.eq_repos. now rewrite !String.eqb_refl. Qed.

Lemma eq_repos_sym (a b : Merge.repo) :
  Merge.eq_repos a b = Merge.eq_repos b a.
Proof.
  unfold Merge.eq_repos.
  now rewrite (String.eqb_sym (Merge.name a)),
              (String.eqb_sym (Merge.created_at a)).
Qed.

Lemma eq_repos_true (a b : Merge.repo) :
  Merge.eq_repos a b = true
  <-> Merge.name a = Merge.name b
      /\ Merge.created_at a = Merge.created_at b.
Proof.
  unfold Merge.eq_repos. rewrite andb_true_iff, !String.eqb_eq. tauto.
Qed.

Lemma eq_repos_trans (a b c : Merge.repo) :
  Merge.eq_repos a b = true -> Merge.eq_repos b c = true ->
  Merge.eq_repos a c = true.
Proof.
  rewrite !eq_repos_true. intros [-> ->] [-> ->]. now split.
Qed.

(** X13: the repository [get_repo_most_stars] returns is one of the five
    and no other of the five has more stars. *)
Theorem get_repo_most_stars_is_a_maximum :
  forall j0 j1 j2 j3 j4 : Merge.repo,
    In (Merge.get_repo_most_stars j0 j1 j2 j3 j4) [j0; j1; j2; j3; j4]
    /\ Forall (fun j =>
                 Merge.stars j
                 <= Merge.stars (Merge.get_repo_most_stars j0 j1 j2 j3 j4))
              [j0; j1; j2; j3; j4].
Proof.
  intros j0 j1 j2 j3 j4. unfold Merge.get_repo_most_stars. cbv zeta.
  destruct (Z.ltb_spec (Merge.stars j0) (Merge.stars j1)) as [H1|H1];
    match goal with
    | |- context [Z.ltb (Merge.stars ?a) (Merge.stars j2)] =>
        destruct (Z.ltb_spec (Merge.stars a) (Merge.stars j2)) as [H2|H2]
    end;
    match goal with
    | |- context [Z.ltb (Merge.stars ?a) (Merge.stars j3)] =>
        destruct (Z.ltb_spec (Merge.stars a) (Merge.stars j3)) as [H3|H3]
    end;
    match goal with
    | |- context [Z.ltb (Merge.stars ?a) (Merge.stars j4)] =>
        destruct (Z.ltb_spec (Merge.stars a) (Merge.stars j4)) as [H4|H4]
    end;
    (split; [simpl; tauto | repeat constructor; lia]).
Qed.

(** ** Removing a repository from the top of a list *)

Lemma pop_middle {A : Type} (l1 l2 : list A) (x : A) :
  Merge.pop (List.length l1) (l1 ++ x :: l2) = (l1 ++ l2)%list.
Proof.
  unfold Merge.pop. induction l1 as [|a l1 IH]; [reflexivity|].
  simpl in *. now rewrite IH.
Qed.

Lemma remove_from_keeps_others (repository : Merge.repo) (iterations : nat) :
  forall i repo_list,
    filter (fun r => negb (Merge.eq_repos repository r))
           (Merge.remove_from repository iterations i repo_list)
    = filter (fun r => negb (Merge.eq_repos repository r)) repo_list
    /\ (List.length (Merge.remove_from repository iterations i repo_list)
        <= List.length repo_list)%nat.
Proof.
  induction iterations as [|k IH]; intros i l; simpl; [split; auto|].
  destruct (nth_error l i) as [r|] eqn:N; [|split; auto].
  destruct (Merge.eq_repos repository r) eqn:E; [|apply IH].
  destruct (IH (S i) (Merge.pop i l)) as [F L].
  apply nth_error_split in N. destruct N as [l1 [l2 [-> Len]]].
  assert (P : Merge.pop i (l1 ++ r :: l2) = (l1 ++ l2)%list)
    by (subst i; apply pop_middle).
  rewrite P in *. split.
  - rewrite F, !filter_app. simpl. now rewrite E.
  - rewrite length_app in *. simpl. lia.
Qed.

(** X14: [remove_repo_from_top] only ever removes entries equal to the
    given repository: the other entries of the list are all kept, in
    their order, and the list does not grow. *)
Theorem remove_repo_from_top_keeps_others :
  forall (repository : Merge.repo) (repo_list : list Merge.repo) (num : nat),
    filter (fun r => negb (Merge.eq_repos repository r))
           (Merge.remove_repo_from_top repository repo_list num)
    = filter (fun r => negb (Merge.eq_repos repository r)) repo_list
    /\ (List.length (Merge.remove_repo_from_top repository repo_list num)
        <= List.length repo_list)%nat.
Proof.
  intros. apply remove_from_keeps_others.
Qed.

Lemma firstn_exact {A : Type} (l1 l2 : list A) :
  firstn (List.length l1) (l1 ++ l2) = l1.
Proof. induction l1 as [|a l1 IH]; simpl; [now destruct l2 | now rewrite IH]. Qed.

Lemma skipn_exact {A : Type} (l1 l2 : list A) :
  skipn (List.length l1) (l1 ++ l2) = l2.
Proof. induction l1 as [|a l1 IH]; simpl; auto. Qed.

Lemma filter_none {A : Type} (p : A -> bool) (l : list A) :
  filter p l = [] -> filter (fun x => negb (p x)) l = l.
Proof.
  induction l as [|x l IH]; simpl; [reflexivity|].
  destruct (p x); [discriminate|]. intros H. simpl. now rewrite IH.
Qed.

Lemma remove_from_unchanged (repository : Merge.repo) (iterations : nat) :
  forall i repo_list,
    filter (Merge.eq_repos repository) (skipn i repo_list) = [] ->
    Merge.remove_from repository iterations i repo_list = repo_list.
Proof.
  induction iterations as [|k IH]; intros i l H; simpl; [reflexivity|].
  destruct (nth_error l i) as [r|] eqn:N; [|reflexivity].
  apply nth_error_split in N. destruct N as [l1 [l2 [-> <-]]].
  rewrite skipn_exact in H. simpl in H.
  destruct (Merge.eq_repos repository r); [discriminate|].
  apply IH.
  replace (l1 ++ r :: l2)%list with ((l1 ++ [r]) ++ l2)%list
    by now rewrite <- app_assoc.
  replace (S (List.length l1)) with (List.length (l1 ++ [r]))
    by (rewrite length_app; simpl; lia).
  now rewrite skipn_exact.
Qed.

Lemma remove_from_single (repository : Merge.repo) (iterations : nat) :
  forall i repo_list,
    (List.length (filter (Merge.eq_repos repository) (skipn i repo_list))
     <= 1)%nat ->
    Merge.remove_from repository iterations i repo_list
    = (firstn i repo_list
       ++ filter (fun r => negb (Merge.eq_repos repository r))
                 (firstn iterations (skipn i repo_list))
       ++ skipn iterations (skipn i repo_list))%list.
Proof.
  induction iterations as [|k IH]; intros i l H.
  - simpl. now rewrite firstn_skipn.
  - cbn [Merge.remove_from].
    destruct (nth_error l i) as [r|] eqn:N.
    + apply nth_error_split in N. destruct N as [l1 [l2 [-> <-]]].
      rewrite skipn_exact in H. rewrite skipn_exact, firstn_exact.
      assert (S1 : skipn (S (List.length l1)) (l1 ++ r :: l2) = l2).
      { replace (l1 ++ r :: l2)%list with ((l1 ++ [r]) ++ l2)%list
          by now rewrite <- app_assoc.
        replace (S (List.length l1)) with (List.length (l1 ++ [r]))
          by (rewrite length_app; simpl; lia).
        apply skipn_exact. }
      assert (F1 : firstn (S (List.length l1)) (l1 ++ r :: l2)
                   = (l1 ++ [r])%list).
      { replace (l1 ++ r :: l2)%list with ((l1 ++ [r]) ++ l2)%list
          by now rewrite <- app_assoc.
        replace (S (List.length l1)) with (List.length (l1 ++ [r]))
          by (rewrite length_app; simpl; lia).
        apply firstn_exact. }
      cbn [firstn skipn filter]. simpl in H.
      destruct (Merge.eq_repos repository r) eqn:E.
      * assert (Z0 : filter (Merge.eq_repos repository) l2 = []).
        { destruct (filter (Merge.eq_repos repository) l2);
            [reflexivity | simpl in H; lia]. }
        rewrite pop_middle. cbn [negb].
        rewrite remove_from_unchanged.
        -- apply filter_none in Z0.
           rewrite <- (firstn_skipn k l2) in Z0 at 2.
           rewrite <- (firstn_skipn k l2) at 1.
           f_equal. f_equal.
           rewrite <- (firstn_skipn k l2) in Z0 at 1.
           rewrite filter_app in Z0.
           assert (L : List.length
                         (filter (fun x => negb (Merge.eq_repos repository x))
                                 (firstn k l2))
                       = List.length (firstn k l2)).
           { apply (f_equal (@List.length _)) in Z0.
             rewrite !length_app in Z0.
             pose proof (filter_length_le
                           (fun x => negb (Merge.eq_repos repository x))
                           (firstn k l2)).
             pose proof (filter_length_le
                           (fun x => negb (Merge.eq_repos repository x))
                           (skipn k l2)).
             lia. }
           clear - L. induction (firstn k l2) as [|x l IH]; [reflexivity|].
           simpl in *. destruct (negb (Merge.eq_repos repository x)).
           ++ simpl in L. f_equal. apply IH. lia.
           ++ pose proof (filter_length_le
                            (fun x => negb (Merge.eq_repos repository x)) l).
              lia.
        -- destruct l2 as [|x l2].
           ++ now rewrite skipn_all2 by (rewrite length_app; simpl; lia).
           ++ replace (l1 ++ x :: l2)%list with ((l1 ++ [x]) ++ l2)%list
                by now rewrite <- app_assoc.
              replace (S (List.length l1)) with (List.length (l1 ++ [x]))
                by (rewrite length_app; simpl; lia).
              rewrite skipn_exact. simpl in Z0.
              destruct (Merge.eq_repos repository x); [discriminate|].
              exact Z0.
      * cbn [negb]. rewrite IH by now rewrite S1.
        rewrite S1, F1, <- app_assoc. reflexivity.
    + apply nth_error_None in N.
      rewrite skipn_all2 by exact N. rewrite firstn_all2 by exact N.
      rewrite firstn_nil, skipn_nil. simpl. now rewrite app_nil_r.
Qed.

(** X15: when at most one entry of the list equals the given repository,
    as in the lists [correct_json] leaves behind, [remove_repo_from_top]
    removes it if it stands among the first [num] entries and changes
    nothing else. *)
Theorem remove_repo_from_top_single :
  forall (repository : Merge.repo) (repo_list : list Merge.repo) (num : nat),
    (List.length (filter (Merge.eq_repos repository) repo_list) <= 1)%nat ->
    Merge.remove_repo_from_top repository repo_list num
    = (filter (fun r => negb (Merge.eq_repos repository r))
              (firstn num repo_list)
       ++ skipn num repo_list)%list.
Proof.
  intros repository l num H. unfold Merge.remove_repo_from_top.
  now rewrite remove_from_single.
Qed.

Lemma remove_repo_from_top_single_witness :
  Merge.remove_repo_from_top
    (Merge.mk_repo "a/b" "" 5 "2013")
    [Merge.mk_repo "c/d" "" 7 "2014"; Merge.mk_repo "a/b" "" 5 "2013";
     Merge.mk_repo "e/f" "" 3 "2015"] 10
  = [Merge.mk_repo "c/d" "" 7 "2014"; Merge.mk_repo "e/f" "" 3 "2015"].
Proof.
  rewrite (remove_repo_from_top_single
             (Merge.mk_repo "a/b" "" 5 "2013")
             [Merge.mk_repo "c/d" "" 7 "2014"; Merge.mk_repo "a/b" "" 5 "2013";
              Merge.mk_repo "e/f" "" 3 "2015"] 10).
  - reflexivity.
  - simpl. lia.
Defined.

Lemma remove_from_shift (repository x : Merge.repo) (iterations : nat) :
  forall i repo_list,
    Merge.remove_from repository iterations (S i) (x :: repo_list)
    = x :: Merge.remove_from repository iterations i repo_list.
Proof.
  induction iterations as [|k IH]; intros i l; [reflexivity|].
  cbn [Merge.remove_from nth_error].
  destruct (nth_error l i) as [r|]; [|reflexivity].
  destruct (Merge.eq_repos repository r); [|apply IH].
  change (Merge.pop (S i) (x :: l)) with (x :: Merge.pop i l). apply IH.
Qed.

(** X16: once [remove_repo_from_top] has removed the first entry, the entry
    that followed it has moved to the index just examined and is never
    looked at: it stays at the head of the list, whether or not it equals
    the repository as well. *)
Theorem remove_repo_from_top_skips_next :
  forall (repository first next : Merge.repo) (rest : list Merge.repo)
         (num : nat),
    Merge.eq_repos repository first = true ->
    Merge.remove_repo_from_top repository (first :: next :: rest) (S num)
    = next :: Merge.remove_repo_from_top repository rest num.
Proof.
  intros repository first next rest num E.
  unfold Merge.remove_repo_from_top. cbn [Merge.remove_from nth_error].
  rewrite E. change (Merge.pop 0 (first :: next :: rest)) with (next :: rest).
  apply remove_from_shift.
Qed.

Lemma remove_repo_from_top_skips_next_witness :
  Merge.remove_repo_from_top
    (Merge.mk_repo "a/b" "" 5 "2013")
    [Merge.mk_repo "a/b" "" 5 "2013"; Merge.mk_repo "a/b" "" 5 "2013"] 10
  = [Merge.mk_repo "a/b" "" 5 "2013"].
Proof.
  rewrite (remove_repo_from_top_skips_next
             (Merge.mk_repo "a/b" "" 5 "2013")
             (Merge.mk_repo "a/b" "" 5 "2013")
             (Merge.mk_repo "a/b" "" 5 "2013") [] 9).
  - reflexivity.
  - reflexivity.
Defined.

(** ** Correcting and validating a file *)

Lemma insert_by_stars_in (x a : Merge.repo) (l : list Merge.repo) :
  In x (Merge.insert_by_stars a l) <-> x = a \/ In x l.
Proof.
  induction l as [|y l IH]; simpl; [intuition congruence|].
  destruct (Merge.stars y <=? Merge.stars a)%Z; simpl;
    [intuition congruence|].
  rewrite IH. intuition congruence.
Qed.

Lemma sort_by_stars_in (x : Merge.repo) (data : list Merge.repo) :
  In x (Merge.sort_by_stars data) <-> In x data.
Proof.
  induction data as [|a data IH]; simpl; [tauto|].
  rewrite insert_by_stars_in, IH. intuition congruence.
Qed.

Lemma insert_by_stars_descending (a : Merge.repo) (l : list Merge.repo) :
  descending l -> descending (Merge.insert_by_stars a l).
Proof.
  induction l as [|y l IH]; intros D; simpl; [split; auto|].
  destruct D as [F D].
  destruct (Z.leb_spec (Merge.stars y) (Merge.stars a)) as [L|L].
  - split; [|split; assumption].
    constructor; [exact L|].
    eapply Forall_impl; [|exact F]. simpl. intros z Hz. lia.
  - split; [|now apply IH].
    apply Forall_forall. intros z Hz. apply insert_by_stars_in in Hz.
    destruct Hz as [->|Hz]; [lia|].
    rewrite Forall_forall in F. now apply F.
Qed.

Lemma sort_by_stars_descending (data : list Merge.repo) :
  descending (Merge.sort_by_stars data).
Proof.
  induction data as [|a data IH]; simpl; [exact Logic.I|].
  now apply insert_by_stars_descending.
Qed.

Lemma descending_without (l1 l2 : list Merge.repo) (x : Merge.repo) :
  descending (l1 ++ x :: l2) -> descending (l1 ++ l2).
Proof.
  induction l1 as [|a l1 IH]; simpl.
  - tauto.
  - intros [F D]. split; [|now apply IH].
    apply Forall_app in F. destruct F as [F1 F2].
    apply Forall_app. split; [exact F1|]. now inversion F2.
Qed.

Lemma distinct_repos_snoc (l : list Merge.repo) (x : Merge.repo) :
  distinct_repos l -> Merge.is_in_repo x l = false ->
  distinct_repos (l ++ [x]).
Proof.
  unfold Merge.is_in_repo.
  induction l as [|a l IH]; simpl; intros D N; [split; auto|].
  destruct D as [F D]. apply orb_false_iff in N. destruct N as [Na N].
  split; [|now apply IH].
  apply Forall_app. split; [exact F|]. now repeat constructor.
Qed.

Lemma is_in_repo_true (x : Merge.repo) (l : list Merge.repo) :
  Merge.is_in_repo x l = true
  <-> exists r, In r l /\ Merge.eq_repos r x = true.
Proof. unfold Merge.is_in_repo. apply existsb_exists. Qed.

(** The loop of [correct_json] from a list of entries already kept. *)
Lemma keep_first_of_each (data : list Merge.repo) :
  forall valid_data,
    let kept :=
      fold_left
        (fun valid_data r =>
           if negb (Merge.is_in_repo r valid_data)
           then (valid_data ++ [r])%list
           else valid_data)
        data valid_data in
    (descending (valid_data ++ data) -> descending kept)
    /\ (distinct_repos valid_data -> distinct_repos kept)
    /\ (forall r, In r kept -> In r valid_data \/ In r data)
    /\ (forall r, In r valid_data -> In r kept)
    /\ (forall r, In r data -> Merge.is_in_repo r kept = true).
Proof.
  induction data as [|x data IH]; intros valid; cbv zeta; cbn [fold_left].
  - rewrite app_nil_r. repeat split; auto; now intros r [].
  - destruct (Merge.is_in_repo x valid) eqn:E; cbn [negb].
    + destruct (IH valid) as [D [N [I1 [I2 I3]]]].
      split; [|split; [|split; [|split]]].
      * intros H. apply D. now apply descending_without in H.
      * exact N.
      * intros r H. destruct (I1 r H); [now left | right; now right].
      * exact I2.
      * intros r [<-|H]; [|now apply I3].
        apply is_in_repo_true in E. destruct E as [v [Hv Ev]].
        apply is_in_repo_true. exists v. split; [now apply I2 | exact Ev].
    + destruct (IH (valid ++ [x])%list) as [D [N [I1 [I2 I3]]]].
      split; [|split; [|split; [|split]]].
      * intros H. apply D. now rewrite <- app_assoc.
      * intros H. apply N. now apply distinct_repos_snoc.
      * intros r H. destruct (I1 r H) as [H1|H1]; [|right; now right].
        apply in_app_or in H1. destruct H1 as [H1|[<-|[]]];
          [now left | right; now left].
      * intros r H. apply I2, in_or_app. now left.
      * intros r [<-|H]; [|now apply I3].
        apply is_in_repo_true. exists x. split; [|apply eq_repos_refl].
        apply I2, in_or_app. right. now left.
Qed.

Lemma correct_json_sorts_and_deduplicates_parts (data : list Merge.repo) :
  descending (Merge.correct_json data)
  /\ distinct_repos (Merge.correct_json data).
Proof.
  unfold Merge.correct_json. cbv zeta.
  destruct (keep_first_of_each (Merge.sort_by_stars data) [])
    as [D [N _]].
  split; [apply D, sort_by_stars_descending | now apply N].
Qed.

(** X17: what [correct_json] writes back is sorted by decreasing stars,
    holds no two equal repositories, holds only repositories of the file,
    and holds an equal of every repository of the file. *)
Theorem correct_json_sorts_and_deduplicates :
  forall data : list Merge.repo,
    descending (Merge.correct_json data)
    /\ distinct_repos (Merge.correct_json data)
    /\ incl (Merge.correct_json data) data
    /\ Forall (fun r => Merge.is_in_repo r (Merge.correct_json data) = true)
              data.
Proof.
  intros data. unfold Merge.correct_json. cbv zeta.
  destruct (keep_first_of_each (Merge.sort_by_stars data) [])
    as [D [N [I1 [_ I3]]]].
  split; [apply D, sort_by_stars_descending|].
  split; [now apply N|]. split.
  - intros r H. destruct (I1 r H) as [[]|H1]. now apply sort_by_stars_in.
  - apply Forall_forall. intros r H. apply I3. now apply sort_by_stars_in.
Qed.

Lemma distinct_repos_before (l1 l2 : list Merge.repo) (x : Merge.repo) :
  distinct_repos (l1 ++ x :: l2) -> Merge.is_in_repo x l1 = false.
Proof.
  unfold Merge.is_in_repo.
  induction l1 as [|a l1 IH]; simpl; [reflexivity|].
  intros [F D]. apply Forall_app in F. destruct F as [_ F].
  inversion F as [|? ? Ha _]; subst. rewrite Ha. simpl. now apply IH.
Qed.

Lemma validate_keeps_distinct (data : list Merge.repo) :
  forall valid_data duplicates,
    distinct_repos (valid_data ++ data) ->
    fold_left
      (fun (st : list Merge.repo * Z) r =>
         let '(valid_data, duplicates) := st in
         if Merge.is_in_repo r valid_data then (valid_data, duplicates + 1)
         else ((valid_data ++ [r])%list, duplicates))
      data (valid_data, duplicates)
    = ((valid_data ++ data)%list, duplicates).
Proof.
  induction data as [|x data IH]; intros valid d D; simpl.
  - now rewrite app_nil_r.
  - rewrite (distinct_repos_before _ _ _ D).
    rewrite IH by now rewrite <- app_assoc.
    now rewrite <- app_assoc.
Qed.

Lemma validate_counts (data : list Merge.repo) :
  forall valid_data duplicates,
    let '(valid_data', duplicates') :=
      fold_left
        (fun (st : list Merge.repo * Z) r =>
           let '(valid_data, duplicates) := st in
           if Merge.is_in_repo r valid_data then (valid_data, duplicates + 1)
           else ((valid_data ++ [r])%list, duplicates))
        data (valid_data, duplicates) in
    duplicates' + Z.of_nat (List.length valid_data')
    = duplicates + Z.of_nat (List.length valid_data)
      + Z.of_nat (List.length data)
    /\ duplicates <= duplicates'.
Proof.
  induction data as [|x data IH]; intros valid d; cbn [fold_left].
  - simpl. lia.
  - destruct (Merge.is_in_repo x valid).
    + specialize (IH valid (d + 1)).
      destruct (fold_left _ data (valid, d + 1)) as [v' d'].
      cbn [List.length]. lia.
    + specialize (IH (valid ++ [x])%list d).
      destruct (fold_left _ data ((valid ++ [x])%list, d)) as [v' d'].
      rewrite length_app in IH. cbn [List.length] in *. lia.
Qed.

Lemma validate_order_descending (data : list Merge.repo) :
  forall order_errors last_star,
    descending data ->
    Forall (fun y => Merge.stars y <= last_star) data ->
    fst (fold_left
           (fun (st : Z * Z) r =>
              let '(order_errors, last_star) := st in
              let current_star := Merge.stars r in
              (if negb (current_star <=? last_star)%Z then order_errors + 1
               else order_errors,
               current_star))
           data (order_errors, last_star))
    = order_errors.
Proof.
  induction data as [|x data IH]; intros e last D F; [reflexivity|].
  cbn [fold_left]. cbv zeta. inversion F as [|? ? Hx _]; subst.
  destruct (Z.leb_spec (Merge.stars x) last) as [_|L]; [|lia].
  cbn [negb]. destruct D as [Fx D]. now apply IH.
Qed.

(** X18: the file [correct_json] writes passes [validate_json]: no
    duplicate is counted, every entry is kept, and no order error is
    counted except one for the first entry when it has more than the
    1000000 stars the check starts from. *)
Theorem validate_json_accepts_corrected :
  forall data : list Merge.repo,
    Merge.validate_json (Merge.correct_json data)
    = (0,
       match Merge.correct_json data with
       | [] => 0
       | first :: _ => if (1000000 <? Merge.stars first)%Z then 1 else 0
       end,
       List.length (Merge.correct_json data)).
Proof.
  intros data.
  destruct (correct_json_sorts_and_deduplicates_parts data) as [D N].
  unfold Merge.validate_json.
  rewrite validate_keeps_distinct by exact N. cbn [app].
  destruct (Merge.correct_json data) as [|first rest]; [reflexivity|].
  cbn [fold_left]. cbv zeta. destruct D as [F D].
  pose proof (validate_order_descending rest
                (if negb (Merge.stars first <=? 1000000)%Z then 0 + 1 else 0)
                (Merge.stars first) D F) as O.
  destruct (fold_left _ rest _) as [order_errors last_star].
  simpl in O. subst order_errors.
  destruct (Z.leb_spec (Merge.stars first) 1000000) as [L|L];
    destruct (Z.ltb_spec 1000000 (Merge.stars first)) as [L'|L'];
    try lia; reflexivity.
Qed.

(** X19: whatever the file holds, the duplicates [validate_json] counts
    and the entries it keeps add up to the entries read, and neither
    figure is negative. *)
Theorem validate_json_accounts_for_every_entry :
  forall data : list Merge.repo,
    let '(duplicates, _, kept) := Merge.validate_json data in
    duplicates + Z.of_nat kept = Z.of_nat (List.length data)
    /\ 0 <= duplicates.
Proof.
  intros data. unfold Merge.validate_json.
  pose proof (validate_counts data [] 0) as C.
  destruct (fold_left _ data ([], 0)) as [valid_data duplicates].
  destruct (fold_left _ data (0, 1000000)) as [order_errors last_star].
  simpl in C. lia.
Qed.

(** * The module [scripts/sql/read_repository_json.py] *)

(** ** Dates *)

Lemma replace_length (old new : ascii) (s : string) :
  String.length (RepositoryJson.replace old new s) = String.length s.
Proof. induction s as [|c s IH]; simpl; [reflexivity | now rewrite IH]. Qed.

Lemma drop_last_length (s : string) :
  String.length (RepositoryJson.drop_last s) = pred (String.length s).
Proof.
  induction s as [|c s IH]; [reflexivity|].
  cbn [RepositoryJson.drop_last]. destruct s as [|d s]; [reflexivity|].
  cbn [String.length] in *. now rewrite IH.
Qed.

Lemma replace_removes (new : ascii) (s : string) :
  new <> "T"%char ->
  ~ In "T"%char (list_ascii_of_string (RepositoryJson.replace "T" new s)).
Proof.
  intros N. induction s as [|c s IH]; simpl; [tauto|].
  intros [E|H]; [|now apply IH].
  destruct (Ascii.eqb_spec c "T"); congruence.
Qed.

Lemma drop_last_in (c : ascii) (s : string) :
  In c (list_ascii_of_string (RepositoryJson.drop_last s)) ->
  In c (list_ascii_of_string s).
Proof.
  induction s as [|d s IH]; [tauto|].
  cbn [RepositoryJson.drop_last]. destruct s as [|e s]; [intros []|].
  cbn [list_ascii_of_string In] in *. tauto.
Qed.

Lemma replace_free (old new : ascii) (s : string) :
  ~ In old (list_ascii_of_string s) -> RepositoryJson.replace old new s = s.
Proof.
  induction s as [|c s IH]; simpl; [reflexivity|]. intros F.
  destruct (Ascii.eqb_spec c old) as [->|N]; [elim F; now left|].
  rewrite IH; [reflexivity | tauto].
Qed.

Lemma replace_app (old new : ascii) (a b : string) :
  RepositoryJson.replace old new (a ++ b)
  = (RepositoryJson.replace old new a ++ RepositoryJson.replace old new b)%string.
Proof. induction a as [|c a IH]; simpl; [reflexivity | now rewrite IH]. Qed.

Lemma drop_last_snoc (s : string) (c : ascii) :
  RepositoryJson.drop_last (s ++ String c "") = s.
Proof.
  induction s as [|d s IH]; [reflexivity|].
  cbn [append RepositoryJson.drop_last].
  destruct (s ++ String c "")%string eqn:E; [now destruct s|].
  now rewrite IH.
Qed.

(** X20: [format_datetime] returns a text one character shorter than its
    argument (the empty text for the empty one) in which no [T] is left.
    On a date and a time without [T], joined by [T] and followed by one
    more character, as in GitHub's format, it returns the date, a space
    and the time. *)
Theorem format_datetime_github_to_mysql :
  forall (date time : string) (last : ascii),
    ~ In "T"%char (list_ascii_of_string date) ->
    ~ In "T"%char (list_ascii_of_string time) ->
    RepositoryJson.format_datetime
      (date ++ String "T" (time ++ String last ""))
    = (date ++ String " " time)%string
    /\ forall dt,
         String.length (RepositoryJson.format_datetime dt)
         = pred (String.length dt)
         /\ ~ In "T"%char
                (list_ascii_of_string (RepositoryJson.format_datetime dt)).
Proof.
  intros date time last Fd Ft. split.
  - unfold RepositoryJson.format_datetime.
    rewrite replace_app. cbn [RepositoryJson.replace].
    rewrite replace_app. cbn [RepositoryJson.replace].
    rewrite (replace_free _ _ date Fd), (replace_free _ _ time Ft).
    change (if Ascii.eqb "T" "T" then " "%char else "T"%char)
      with " "%char.
    replace (date ++ String " " (time ++ String _ ""))%string
      with ((date ++ String " " time) ++ String
              (if Ascii.eqb last "T" then " "%char else last) "")%string
      by (rewrite string_app_assoc; reflexivity).
    apply drop_last_snoc.
  - intros dt. unfold RepositoryJson.format_datetime. split.
    + now rewrite drop_last_length, replace_length.
    + intros H. apply drop_last_in in H.
      revert H. apply replace_removes. discriminate.
Qed.

Lemma format_datetime_github_to_mysql_witness :
  RepositoryJson.format_datetime "2013-10-28T13:19:39Z"
  = "2013-10-28 13:19:39".
Proof.
  apply (format_datetime_github_to_mysql "2013-10-28" "13:19:39" "Z").
  - vm_compute. intuition discriminate.
  - vm_compute. intuition discriminate.
Defined.

(** ** Repositories *)

Lemma split_length (sep : ascii) (s : string) :
  List.length (split sep s) = S (occurrences sep s).
Proof.
  unfold occurrences. induction s as [|c s IH]; [reflexivity|].
  cbn [split list_ascii_of_string count_occ].
  destruct (Ascii.eqb_spec c sep) as [->|N].
  - destruct (ascii_dec sep sep); [|congruence]. simpl. now rewrite IH.
  - destruct (ascii_dec c sep); [congruence|].
    destruct (split_has_pieces sep s) as [p [ps E]]. rewrite E in *.
    exact IH.
Qed.

(** X21: a [Repo] can be built exactly from the names with one slash: the
    user is the part before it and the name the part after it, the date is
    formatted and the other attributes are stored as given; any other
    number of slashes raises [ValueError]. *)
Theorem new_Repo_needs_one_slash :
  forall (name url : string) (stars : Z) (creation_datetime : string),
    match RepositoryJson.new_Repo name url stars creation_datetime with
    | Ok r =>
        occurrences "/" name = 1%nat
        /\ name = (RepositoryJson.user r
                   ++ String "/" (RepositoryJson.name r))%string
        /\ RepositoryJson.created_at r
           = RepositoryJson.format_datetime creation_datetime
        /\ RepositoryJson.clone_url r = url
        /\ RepositoryJson.stars r = stars
    | Raise exn => exn = "ValueError" /\ occurrences "/" name <> 1%nat
    end.
Proof.
  intros name url stars dt. unfold RepositoryJson.new_Repo.
  pose proof (split_length "/" name) as L.
  pose proof (join_split_round_trip "/" name) as J.
  destruct (split "/" name) as [|a [|b [|c l]]]; simpl in *;
    try (split; [reflexivity | lia]).
  repeat split; [lia | now rewrite <- J].
Qed.



